(** * XMODEM file transfer (xmodem.py): a shallow embedding and its properties

    Bytes are integers in [0, 255] (type [Z]); a Python [bytes] or
    [bytearray] object is a [list Z].  Python integers are unbounded, so the
    arithmetic of the source is written on [Z] with its masks spelled out. *)

From Stdlib Require Import ZArith List Bool Lia.
Import ListNotations.
Local Open Scope Z_scope.

Definition bytes := list Z.

(** ** Protocol constants (xmodem.py, lines 10-22) *)

Definition SOH : bytes := [0x01].
Definition EOT : bytes := [0x04].
Definition ACK : bytes := [0x06].
Definition NAK : bytes := [0x15].
Definition CAN : bytes := [0x18].
Definition C : bytes := [0x43].
Definition PADDING : bytes := [0x1a].

Definition BLOCK_SIZE : Z := 128.
Definition RETRY_LIMIT : Z := 10.
Definition RECV_TIMEOUT : Z := 10.

Inductive ChecksumType : Type :=
| BASIC
| CRC.

Definition ChecksumType_eqb (a b : ChecksumType) : bool :=
  match a, b with
  | BASIC, BASIC | CRC, CRC => true
  | _, _ => false
  end.

(** ** Python built-ins used by the source *)

(** [sum(data)]: left-to-right addition starting from 0. *)
Definition py_sum (data : bytes) : Z := fold_left Z.add data 0.

(** [len(data)]. *)
Definition len {A : Type} (data : list A) : Z := Z.of_nat (length data).

(** [ord(b)] for a [bytes] object of length one.  Python raises on any other
    length; every call site of the source is guarded by a length test, and
    the value chosen here for the other lengths is never used. *)
Definition ord (b : bytes) : Z :=
  match b with
  | [x] => x
  | _ => 0
  end.

(** [a == b] on [bytes] objects. *)
Fixpoint bytes_eqb (a b : bytes) : bool :=
  match a, b with
  | [], [] => true
  | x :: a', y :: b' => (x =? y) && bytes_eqb a' b'
  | _, _ => false
  end.

(** Truth value of a [bytes] object: [if data:] holds when it is not empty. *)
Definition truthy {A : Type} (data : list A) : bool :=
  match data with
  | [] => false
  | _ :: _ => true
  end.

(** [for _ in range(n): x = f(x)]. *)
Fixpoint repeat_times {A : Type} (n : nat) (f : A -> A) (x : A) : A :=
  match n with
  | O => x
  | S n' => repeat_times n' f (f x)
  end.

(** ** Integrity codecs (xmodem.py, lines 28-43) *)

Definition calculate_checksum (data : bytes) : Z :=
  Z.land (py_sum data) 0xFF.

(** One pass of the inner loop of [calculate_crc] (lines 38-41). *)
Definition crc_shift (crc : Z) : Z :=
  if negb (Z.land crc 0x8000 =? 0)
  then Z.lxor (Z.shiftl crc 1) 0x1021
  else Z.shiftl crc 1.

(** The body of the outer loop of [calculate_crc] (lines 36-42). *)
Definition crc_update (crc byte : Z) : Z :=
  let crc := Z.lxor crc (Z.shiftl byte 8) in
  let crc := repeat_times 8 crc_shift crc in
  Z.land crc 0xFFFF.

Definition calculate_crc (data : bytes) : Z :=
  fold_left crc_update data 0.

(** *** CRC-CCITT/XMODEM as the specification words it

    A 16-bit register, seed 0.  For each byte [b]: XOR [b << 8] into the
    register; eight times, shift left one bit inside the register and, when
    the bit shifted out (the pre-shift high bit) was set, XOR with 0x1021;
    mask to 16 bits after the byte. *)

Definition reg16 (x : Z) : Z := x mod 2 ^ 16.

Definition spec_crc_shift (reg : Z) : Z :=
  let high := Z.testbit reg 15 in
  let reg := reg16 (Z.shiftl reg 1) in
  if high then Z.lxor reg 0x1021 else reg.

Definition spec_crc_update (reg b : Z) : Z :=
  let reg := Z.lxor reg (Z.shiftl b 8) in
  let reg := repeat_times 8 spec_crc_shift reg in
  reg16 reg.

Definition spec_crc_xmodem (data : bytes) : Z :=
  fold_left spec_crc_update data 0.

(** ** The outside world

    The serial line towards this endpoint is a script of read events:
    [Some b] is a byte that arrives, [None] is a second of silence.  An
    exhausted script is a silent line.  [pyserial]'s [read(size)] returns as
    soon as [size] bytes have arrived, and returns what it has (possibly
    nothing) when the port's timeout elapses first; the port is opened with
    [timeout=1] (lines 45-58), so a timed-out read costs one second and, in
    this model, a read that is served from the line costs none.

    [tx] collects the bytes written to the line, [clock] is [time.time()] in
    seconds, [disk] is the content of the receiver's output file ([None]: no
    such file) and [disk_writable] tells what happens when that file is
    opened for writing and written. *)

(** What [with open(output_filename, 'wb') as file: file.write(data)] meets:
    the file is opened, written and closed; or [open] raises [IOError],
    before anything is done to the file; or [open] succeeds, which creates
    or truncates the file, and [write] or the closing of the file raises
    [IOError] when only the first [written] bytes of the data have reached
    the file. *)
Inductive Writability : Type :=
| Writable
| OpenFails
| WriteFails (written : nat).

Record World : Type := mkWorld {
  rx : list (option Z);
  tx : bytes;
  clock : Z;
  disk : option bytes;
  disk_writable : Writability
}.

Definition PORT_TIMEOUT : Z := 1.

(** A computation on the world; [None] means that a loop of the model used
    up its iteration budget before the source's loop ended. *)
Definition IO (A : Type) : Type := World -> option (A * World).

Definition ret {A : Type} (a : A) : IO A := fun w => Some (a, w).

Definition bind {A B : Type} (m : IO A) (k : A -> IO B) : IO B :=
  fun w =>
    match m w with
    | Some (a, w') => k a w'
    | None => None
    end.

Definition out_of_fuel {A : Type} : IO A := fun _ => None.

Declare Scope io_scope.
Delimit Scope io_scope with io.
Notation "x <- m ;; k" := (bind m (fun x => k))
  (at level 61, m at next level, right associativity) : io_scope.
Notation "m ;; k" := (bind m (fun _ => k))
  (at level 61, right associativity) : io_scope.
Local Open Scope io_scope.

(** What a read of at most [size] bytes takes from the line: the bytes, the
    rest of the line, and whether the read timed out. *)
Fixpoint line_read (size : nat) (line : list (option Z))
  : bytes * list (option Z) * bool :=
  match size with
  | O => ([], line, false)
  | S size' =>
    match line with
    | [] => ([], [], true)
    | None :: line' => ([], line', true)
    | Some b :: line' =>
      let '(bs, line'', timed_out) := line_read size' line' in
      (b :: bs, line'', timed_out)
    end
  end.

(** [ser.read(size)]. *)
Definition ser_read (size : nat) : IO bytes :=
  fun w =>
    let '(bs, line, timed_out) := line_read size (rx w) in
    Some (bs, mkWorld line (tx w)
                      (if timed_out then clock w + PORT_TIMEOUT else clock w)
                      (disk w) (disk_writable w)).

(** [ser.write(data)]. *)
Definition ser_write (data : bytes) : IO unit :=
  fun w => Some (tt, mkWorld (rx w) (tx w ++ data) (clock w)
                             (disk w) (disk_writable w)).

(** [ser.flush()]. *)
Definition ser_flush : IO unit := ret tt.

(** [time.time()]. *)
Definition time_time : IO Z := fun w => Some (clock w, w).

(** [time.sleep(seconds)]. *)
Definition time_sleep (seconds : Z) : IO unit :=
  fun w => Some (tt, mkWorld (rx w) (tx w) (clock w + seconds)
                             (disk w) (disk_writable w)).

(** [with open(output_filename, 'wb') as file: file.write(data)] inside the
    [try] of lines 275-282: [true] when the file was written, [false] when
    [IOError] was raised, by [open] with the file as it was, or later with
    the file holding what had been written of the data. *)
Definition write_output_file (data : bytes) : IO bool :=
  fun w =>
    match disk_writable w with
    | Writable =>
      Some (true, mkWorld (rx w) (tx w) (clock w) (Some data) Writable)
    | OpenFails => Some (false, w)
    | WriteFails written =>
      Some (false, mkWorld (rx w) (tx w) (clock w)
                           (Some (firstn written data)) (WriteFails written))
    end.

(** How an iteration of a loop, or a loop, ends: [Continue] goes to the next
    iteration, [Break] leaves the loop (by [break] or by a false loop
    condition) and [Return] leaves the function with a value. *)
Inductive LoopCtl (S R : Type) : Type :=
| Continue (s : S)
| Break (s : S)
| Return (r : R).
Arguments Continue {S R} s.
Arguments Break {S R} s.
Arguments Return {S R} r.

(** ** Sender (xmodem.py, lines 64-158) *)

(** [b * n] on [bytes]. *)
Definition bytes_mul (b : bytes) (n : Z) : bytes :=
  concat (repeat b (Z.to_nat n)).

(** [range(start, stop, step)] for a positive [step]. *)
Definition py_range (start stop step : Z) : list Z :=
  map (fun k => start + Z.of_nat k * step)
      (seq 0 (Z.to_nat ((stop - start + step - 1) / step))).

(** [data[i:j]] for [0 <= i <= j]. *)
Definition py_slice (data : bytes) (i j : Z) : bytes :=
  firstn (Z.to_nat (j - i)) (skipn (Z.to_nat i) data).

(** Lines 76-79: pad the data to a multiple of [BLOCK_SIZE]. *)
Definition pad_file_content (file_content : bytes) : bytes :=
  let padding_size := BLOCK_SIZE - (len file_content mod BLOCK_SIZE) in
  if padding_size <? BLOCK_SIZE
  then file_content ++ bytes_mul PADDING padding_size
  else file_content.

(** Line 82: split the data into blocks. *)
Definition split_blocks (file_content : bytes) : list bytes :=
  map (fun i => py_slice file_content i (i + BLOCK_SIZE))
      (py_range 0 (len file_content) BLOCK_SIZE).

(** Lines 105-117: build the packet of a block. *)
Definition build_packet (use_crc : bool) (block_number : Z) (block : bytes)
  : bytes :=
  let packet := SOH in
  let packet := packet ++ [Z.land block_number 0xFF] in
  let packet := packet ++ [255 - Z.land block_number 0xFF] in
  let packet := packet ++ block in
  if use_crc then
    let crc_value := calculate_crc block in
    let packet := packet ++ [Z.land (Z.shiftr crc_value 8) 0xFF] in
    packet ++ [Z.land crc_value 0xFF]
  else
    packet ++ [calculate_checksum block].

(** Lines 87-93: wait for the receiver to initiate the transfer.  The loop
    is entered with [initiate_char = None] and left at once when it is
    assigned, so its condition is the one on the clock; the result is the
    final [initiate_char]. *)
Fixpoint wait_initiate (fuel : nat) (start_time : Z) : IO (option bytes) :=
  now <- time_time ;;
  if now - start_time <? RECV_TIMEOUT then
    match fuel with
    | O => out_of_fuel
    | S fuel' =>
      data <- ser_read 1 ;;
      if truthy data then ret (Some data)
      else wait_initiate fuel' start_time
    end
  else ret None.

(** Lines 103-136: the retry loop of one block.  [Break retries] is the
    state after the loop, [Return false] the [return False] of line 132. *)
Fixpoint send_block_loop (fuel : nat) (use_crc : bool) (block_number : Z)
         (block : bytes) (retries : Z) : IO (LoopCtl Z bool) :=
  if retries <? RETRY_LIMIT then
    match fuel with
    | O => out_of_fuel
    | S fuel' =>
      let packet := build_packet use_crc block_number block in
      ser_write packet ;;
      ser_flush ;;
      response <- ser_read 1 ;;
      if bytes_eqb response ACK then ret (Break retries)
      else if bytes_eqb response NAK || bytes_eqb response C then
        send_block_loop fuel' use_crc block_number block (retries + 1)
      else if bytes_eqb response CAN then ret (Return false)
      else send_block_loop fuel' use_crc block_number block (retries + 1)
    end
  else ret (Break retries).

(** Lines 102-144: the loop over the blocks, entered with the current
    [block_number].  [Break] carries the block number after the last block. *)
Fixpoint send_blocks (use_crc : bool) (blocks : list bytes) (block_number : Z)
  : IO (LoopCtl Z bool) :=
  match blocks with
  | [] => ret (Break block_number)
  | block :: blocks' =>
    r <- send_block_loop (Z.to_nat RETRY_LIMIT) use_crc block_number block 0 ;;
    match r with
    | Return b => ret (Return b)
    | Continue retries | Break retries =>
      if retries >=? RETRY_LIMIT then
        ser_write (CAN ++ CAN) ;;
        ret (Return false)
      else
        send_blocks use_crc blocks' ((block_number + 1) mod 256)
    end
  end.

(** Lines 146-158: send EOT until it is acknowledged. *)
Fixpoint send_eot_loop (fuel : nat) (retries : Z) : IO bool :=
  if retries <? RETRY_LIMIT then
    match fuel with
    | O => out_of_fuel
    | S fuel' =>
      ser_write EOT ;;
      response <- ser_read 1 ;;
      if bytes_eqb response ACK then ret true
      else
        time_sleep 1 ;;
        send_eot_loop fuel' (retries + 1)
    end
  else ret false.

(** Lines 101-158: what [send_file] does once the handshake byte has fixed
    [use_crc]. *)
Definition after_handshake (use_crc : bool) (blocks : list bytes) : IO bool :=
  r <- send_blocks use_crc blocks 1 ;;
  match r with
  | Return b => ret b
  | Continue _ | Break _ => send_eot_loop (Z.to_nat RETRY_LIMIT) 0
  end.

(** [send_file(ser, filename, checksum_type)].  [file] is what reading
    [filename] gives: [None] when it raises [FileNotFoundError] or
    [IOError]. *)
Definition send_file (file : option bytes) (checksum_type : ChecksumType)
  : IO bool :=
  match file with
  | None => ret false
  | Some file_content =>
    let file_content := pad_file_content file_content in
    let blocks := split_blocks file_content in
    start_time <- time_time ;;
    initiate_char <- wait_initiate (Z.to_nat RECV_TIMEOUT) start_time ;;
    match initiate_char with
    | None => ret false
    | Some initiate_char =>
      if negb (truthy initiate_char) then ret false
      else
        let use_crc := bytes_eqb initiate_char C
                       && ChecksumType_eqb checksum_type CRC in
        after_handshake use_crc blocks
    end
  end.

(** ** Receiver (xmodem.py, lines 160-282) *)

(** Lines 165-181: initiate the transfer. *)
Fixpoint receive_handshake_loop (fuel : nat) (use_crc : bool) (retries : Z)
  : IO (LoopCtl Z bool) :=
  if retries <? RETRY_LIMIT then
    match fuel with
    | O => out_of_fuel
    | S fuel' =>
      (if use_crc then ser_write C else ser_write NAK) ;;
      data <- ser_read 1 ;;
      if bytes_eqb data SOH then ret (Break retries)
      else if bytes_eqb data CAN then ret (Return false)
      else
        time_sleep 1 ;;
        receive_handshake_loop fuel' use_crc (retries + 1)
    end
  else ret (Break retries).

(** The local variables of the receive loop: [received_data] and
    [expected_block]. *)
Definition RecvState : Type := (bytes * Z)%type.

(** Line 206: the test on the block number and its complement that a frame
    has to pass. *)
Definition block_num_verified (block_num block_num_complement : bytes) : bool :=
  ord block_num + ord block_num_complement =? 255.

(** [ser.write(NAK); continue]. *)
Definition nak_continue (st : RecvState) : IO (LoopCtl RecvState bool) :=
  ser_write NAK ;;
  ret (Continue st).

(** Lines 258-268: check for EOT after a block.  Every branch but the one
    of EOT goes back to the head of the loop, the last one by reaching the
    end of the loop body. *)
Definition check_eot (st : RecvState) : IO (LoopCtl RecvState bool) :=
  data <- ser_read 1 ;;
  if bytes_eqb data EOT then
    ser_write ACK ;;
    ret (Break st)
  else if bytes_eqb data SOH then ret (Continue st)
  else if negb (truthy data) then ret (Continue st)
  else ret (Continue st).

(** Lines 243-268: a block was received correctly. *)
Definition block_received (block_num data_block : bytes) (st : RecvState)
  : IO (LoopCtl RecvState bool) :=
  let '(received_data, expected_block) := st in
  if ord block_num =? expected_block then
    let received_data := received_data ++ data_block in
    ser_write ACK ;;
    let expected_block := (expected_block + 1) mod 256 in
    check_eot (received_data, expected_block)
  else if ord block_num =? (expected_block - 1) mod 256 then
    ser_write ACK ;;
    check_eot (received_data, expected_block)
  else
    ser_write CAN ;;
    ser_write CAN ;;
    ret (Return false).

(** Lines 192-268: the body of the receive loop. *)
Definition receive_iteration (use_crc : bool) (st : RecvState)
  : IO (LoopCtl RecvState bool) :=
  block_num <- ser_read 1 ;;
  if negb (truthy block_num) then nak_continue st
  else
    block_num_complement <- ser_read 1 ;;
    if negb (truthy block_num_complement) then nak_continue st
    else if negb (block_num_verified block_num block_num_complement)
    then nak_continue st
    else
      data_block <- ser_read (Z.to_nat BLOCK_SIZE) ;;
      if negb (len data_block =? BLOCK_SIZE) then nak_continue st
      else if use_crc then
        crc_bytes <- ser_read 2 ;;
        if negb (len crc_bytes =? 2) then nak_continue st
        else
          let received_crc :=
            Z.lor (Z.shiftl (nth 0 crc_bytes 0) 8) (nth 1 crc_bytes 0) in
          let calculated_crc := calculate_crc data_block in
          if negb (received_crc =? calculated_crc) then nak_continue st
          else block_received block_num data_block st
      else
        checksum <- ser_read 1 ;;
        if negb (truthy checksum) then nak_continue st
        else
          let calculated_checksum := calculate_checksum data_block in
          if negb (ord checksum =? calculated_checksum) then nak_continue st
          else block_received block_num data_block st.

(** Lines 191-268: [while True].  [fuel] bounds the number of iterations
    the model follows. *)
Fixpoint receive_loop (fuel : nat) (use_crc : bool) (st : RecvState)
  : IO (LoopCtl RecvState bool) :=
  match fuel with
  | O => out_of_fuel
  | S fuel' =>
    r <- receive_iteration use_crc st ;;
    match r with
    | Continue st' => receive_loop fuel' use_crc st'
    | Break st' => ret (Break st')
    | Return b => ret (Return b)
    end
  end.

(** Lines 270-272: remove the padding bytes. *)
Fixpoint remove_padding (fuel : nat) (received_data : bytes) : IO bytes :=
  if truthy received_data && (last received_data 0 =? nth 0 PADDING 0) then
    match fuel with
    | O => out_of_fuel
    | S fuel' => remove_padding fuel' (removelast received_data)
    end
  else ret received_data.

(** Lines 270-282: what follows the receive loop. *)
Definition save_received (received_data : bytes) : IO bool :=
  received_data <- remove_padding (length received_data) received_data ;;
  write_output_file received_data.

(** Lines 188-282: the transfer after the handshake, from the loop state
    [st] on. *)
Definition receive_transfer (fuel : nat) (use_crc : bool) (st : RecvState)
  : IO bool :=
  r <- receive_loop fuel use_crc st ;;
  match r with
  | Return b => ret b
  | Continue (received_data, _) | Break (received_data, _) =>
    save_received received_data
  end.

(** [receive_file(ser, output_filename, checksum_type)]; [fuel] bounds the
    iterations of the [while True] loop. *)
Definition receive_file (fuel : nat) (checksum_type : ChecksumType) : IO bool :=
  let use_crc := ChecksumType_eqb checksum_type CRC in
  h <- receive_handshake_loop (Z.to_nat RETRY_LIMIT) use_crc 0 ;;
  match h with
  | Return b => ret b
  | Continue retries | Break retries =>
    if retries >=? RETRY_LIMIT then ret false
    else receive_transfer fuel use_crc ([], 1)
  end.

(** ** Vocabulary of the statements *)

(** The [i]-th read event of a line; a line that has ended is silent. *)
Definition event (line : list (option Z)) (i : nat) : option Z :=
  nth i line None.

(** The integrity trailer that [receive_iteration] accepts after
    [data_block] (lines 219-241). *)
Definition trailer_accepted (use_crc : bool) (data_block trailer : bytes)
  : bool :=
  if use_crc then
    (len trailer =? 2)
    && (Z.lor (Z.shiftl (nth 0 trailer 0) 8) (nth 1 trailer 0)
        =? calculate_crc data_block)
  else
    (len trailer =? 1) && (ord trailer =? calculate_checksum data_block).

(** The world after [data] was written to the line. *)
Definition wrote (data : bytes) (w : World) : World :=
  mkWorld (rx w) (tx w ++ data) (clock w) (disk w) (disk_writable w).

(** The world with [line] left to read. *)
Definition with_rx (line : list (option Z)) (w : World) : World :=
  mkWorld line (tx w) (clock w) (disk w) (disk_writable w).

(** ** Reading the line *)

(** The [bytes] object that a one-byte read returns on a read event. *)
Definition read_result (e : option Z) : bytes :=
  match e with
  | Some b => [b]
  | None => []
  end.

(** The world after a one-byte read. *)
Definition after_read (w : World) : World :=
  mkWorld (tl (rx w)) (tx w)
          (match event (rx w) 0 with
           | Some _ => clock w
           | None => clock w + PORT_TIMEOUT
           end)
          (disk w) (disk_writable w).

(** Whether a read event is the byte [x]. *)
Definition is_byte (x : Z) (e : option Z) : bool :=
  match e with
  | Some b => b =? x
  | None => false
  end.

(** A response event on which [send_block_loop] sends the packet again:
    anything but the byte ACK and the byte CAN, silence included. *)
Definition asks_retry (e : option Z) : bool :=
  negb (is_byte 0x06 e || is_byte 0x18 e).

(** A computation that leaves the output file alone. *)
Definition keeps_disk {A : Type} (m : IO A) : Prop :=
  forall w a w', m w = Some (a, w') ->
                 disk w' = disk w /\ disk_writable w' = disk_writable w.

(** The first [n] iterations of the receive loop, as far as the loop goes
    on. *)
Fixpoint receive_iterations (n : nat) (use_crc : bool) (st : RecvState)
  : IO (LoopCtl RecvState bool) :=
  match n with
  | O => ret (Continue st)
  | S n' =>
    r <- receive_iteration use_crc st ;;
    match r with
    | Continue st' => receive_iterations n' use_crc st'
    | Break st' => ret (Break st')
    | Return b => ret (Return b)
    end
  end.

(** A transfer of two blocks in CRC mode as it arrives at the receiver: the
    packets of blocks 1 and 2, then EOT ... *)
Definition two_block_transfer : list (option Z) :=
  map Some (build_packet true 1 (repeat 0x41 128))
  ++ map Some (build_packet true 2 (repeat 0x42 128))
  ++ [Some 0x04].

(** ... and the same transfer when the sender lets a second pass between
    the two packets. *)
Definition paused_transfer : list (option Z) :=
  map Some (build_packet true 1 (repeat 0x41 128))
  ++ [None]
  ++ map Some (build_packet true 2 (repeat 0x42 128))
  ++ [Some 0x04].

(** The world of a receiver that starts on [line]. *)
Definition receiver_on (line : list (option Z)) : World :=
  mkWorld line [] 0 None Writable.

(** ** Vocabulary of the statements on whole sessions *)

(** A value that fits in a byte, as [bytes([...])] demands. *)
Definition u8 (x : Z) : Prop := 0 <= x <= 255.

(** Data that does not end with the padding byte. *)
Definition no_trailing_padding (data : bytes) : Prop :=
  forall data', data <> data' ++ PADDING.

(** What the sender writes for [blocks] when every packet is acknowledged
    at once: the packet of each block, numbered as line 144 numbers them,
    from [block_number] on. *)
Fixpoint packets_from (use_crc : bool) (block_number : Z) (blocks : list bytes)
  : bytes :=
  match blocks with
  | [] => []
  | block :: blocks' =>
    build_packet use_crc block_number block
    ++ packets_from use_crc ((block_number + 1) mod 256) blocks'
  end.

(** The byte with which the receiver asks for the transfer (lines
    167-170). *)
Definition handshake_byte (use_crc : bool) : bytes :=
  if use_crc then C else NAK.

(** The ways in which an iteration of the receive loop, entered with the
    loop state [st] and with [tx0] written so far, can end with control
    [ctl] and [tx1] written: the frame was rejected (NAK, same state); or it
    was out of sequence (CAN CAN, [return False]); or it was acknowledged,
    the state being the same (a duplicate) or extended by a block of 128
    bytes with the expected block advanced by one modulo 256, and then
    either the loop goes on or EOT was read and acknowledged and the loop is
    left. *)
Definition iteration_outcome (st : RecvState) (tx0 : bytes)
           (ctl : LoopCtl RecvState bool) (tx1 : bytes) : Prop :=
  (ctl = Continue st /\ tx1 = tx0 ++ NAK)
  \/ (ctl = Return false /\ tx1 = tx0 ++ CAN ++ CAN)
  \/ (exists st',
         (st' = st
          \/ exists d, len d = BLOCK_SIZE
                       /\ st' = (fst st ++ d, (snd st + 1) mod 256))
         /\ ((ctl = Continue st' /\ tx1 = tx0 ++ ACK)
             \/ (ctl = Break st' /\ tx1 = tx0 ++ ACK ++ ACK))).

(** A computation that ends in one of these ways on every world. *)
Definition iteration_shaped (st : RecvState)
           (m : IO (LoopCtl RecvState bool)) : Prop :=
  forall w, exists ctl w',
      m w = Some (ctl, w') /\ iteration_outcome st (tx w) ctl (tx w').

(** * Properties *)

(** ** Integrity codecs *)

Lemma py_sum_from (data : bytes) (acc : Z) :
  fold_left Z.add data acc = acc + fold_right Z.add 0 data.
Proof.
  revert acc; induction data as [|b data IH]; intros acc; simpl.
  - lia.
  - rewrite IH; lia.
Qed.

Lemma py_sum_arith (data : bytes) : py_sum data = fold_right Z.add 0 data.
Proof. unfold py_sum; rewrite py_sum_from; lia. Qed.

Lemma land_0xFF (x : Z) : Z.land x 0xFF = x mod 256.
Proof. change 0xFF with (Z.ones 8); rewrite Z.land_ones by lia; reflexivity. Qed.

Lemma land_0xFFFF (x : Z) : Z.land x 0xFFFF = reg16 x.
Proof. change 0xFFFF with (Z.ones 16); rewrite Z.land_ones by lia; reflexivity. Qed.

Lemma reg16_bits (x i : Z) :
  0 <= i < 16 -> Z.testbit (reg16 x) i = Z.testbit x i.
Proof. intros Hi; unfold reg16; apply Z.mod_pow2_bits_low; lia. Qed.

Lemma reg16_bits_high (x i : Z) : 16 <= i -> Z.testbit (reg16 x) i = false.
Proof. intros Hi; unfold reg16; apply Z.mod_pow2_bits_high; lia. Qed.

(** Two integers are the same 16-bit register when their low 16 bits agree. *)
Lemma reg16_ext (x y : Z) :
  (forall i, 0 <= i < 16 -> Z.testbit x i = Z.testbit y i) ->
  reg16 x = reg16 y.
Proof.
  intros H; apply Z.bits_inj'; intros i Hi.
  destruct (Z.lt_ge_cases i 16).
  - rewrite !reg16_bits by lia; apply H; lia.
  - rewrite !reg16_bits_high by lia; reflexivity.
Qed.

Lemma reg16_low (x y i : Z) :
  reg16 x = reg16 y -> 0 <= i < 16 -> Z.testbit x i = Z.testbit y i.
Proof.
  intros H Hi; rewrite <- (reg16_bits x), <- (reg16_bits y) by lia.
  now rewrite H.
Qed.

(** The test [crc & 0x8000] looks at bit 15. *)
Lemma high_bit_test (crc : Z) :
  negb (Z.land crc 0x8000 =? 0) = Z.testbit crc 15.
Proof.
  destruct (Z.testbit crc 15) eqn:Hb.
  - destruct (Z.eqb_spec (Z.land crc 0x8000) 0) as [E|]; [|reflexivity].
    apply (f_equal (fun z => Z.testbit z 15)) in E.
    rewrite Z.land_spec, Hb in E; discriminate E.
  - replace (Z.land crc 0x8000) with 0; [reflexivity|].
    symmetry; apply Z.bits_inj'; intros i Hi.
    rewrite Z.land_spec, Z.bits_0.
    change 0x8000 with (2 ^ 15).
    rewrite Z.pow2_bits_eqb by lia.
    destruct (Z.eqb_spec 15 i) as [<-|]; [rewrite Hb|]; now rewrite ?andb_false_r.
Qed.

Lemma crc_shift_sim (x y : Z) :
  reg16 x = reg16 y -> reg16 (crc_shift x) = reg16 (spec_crc_shift y).
Proof.
  intros H; unfold crc_shift, spec_crc_shift.
  rewrite high_bit_test, (reg16_low x y 15 H) by lia.
  assert (S : forall i, 0 <= i < 16 ->
                Z.testbit (Z.shiftl x 1) i = Z.testbit (reg16 (Z.shiftl y 1)) i).
  { intros i Hi; rewrite reg16_bits, !Z.shiftl_spec by lia.
    destruct (Z.eq_dec i 0) as [->|].
    - rewrite !Z.testbit_neg_r by lia; reflexivity.
    - apply reg16_low; [exact H | lia]. }
  destruct (Z.testbit y 15); apply reg16_ext; intros i Hi.
  - rewrite !Z.lxor_spec, S by lia; reflexivity.
  - apply S; lia.
Qed.

Lemma crc_shifts_sim (n : nat) (x y : Z) :
  reg16 x = reg16 y ->
  reg16 (repeat_times n crc_shift x) = reg16 (repeat_times n spec_crc_shift y).
Proof.
  revert x y; induction n as [|n IH]; intros x y H; simpl.
  - exact H.
  - apply IH, crc_shift_sim, H.
Qed.

Lemma crc_update_spec (crc b : Z) : crc_update crc b = spec_crc_update crc b.
Proof.
  unfold crc_update, spec_crc_update; cbv zeta.
  rewrite land_0xFFFF; apply crc_shifts_sim; reflexivity.
Qed.

Lemma fold_left_ext_eq {A B : Type} (f g : A -> B -> A) (l : list B) (a : A) :
  (forall x y, f x y = g x y) -> fold_left f l a = fold_left g l a.
Proof.
  intros H; revert a; induction l as [|b l IH]; intros a; simpl.
  - reflexivity.
  - rewrite H; apply IH.
Qed.

Lemma reg16_range (x : Z) : 0 <= reg16 x < 65536.
Proof. unfold reg16; change (2 ^ 16) with 65536; apply Z.mod_pos_bound; lia. Qed.

Lemma calculate_crc_snoc (data : bytes) (b : Z) :
  calculate_crc (data ++ [b]) = crc_update (calculate_crc data) b.
Proof. unfold calculate_crc; rewrite fold_left_app; reflexivity. Qed.

(** The CRC is a 16-bit value. *)
Lemma calculate_crc_range (data : bytes) : 0 <= calculate_crc data < 65536.
Proof.
  destruct data as [|b data] using rev_ind.
  - vm_compute; split; [discriminate | reflexivity].
  - rewrite calculate_crc_snoc; unfold crc_update; cbv zeta.
    rewrite land_0xFFFF; apply reg16_range.
Qed.

(** C3.  The CRC that [calculate_crc] computes is CRC-CCITT/XMODEM as the
    specification describes it: for every input the Python code, which lets
    its integer grow during the eight shifts of a byte and masks once per
    byte, returns the value of the 16-bit register machine (seed 0, XOR of
    [b << 8], eight left shifts each followed by XOR with 0x1021 when the
    pre-shift high bit was set).  On 128 bytes of 0x00 the result is
    0x0000. *)
Theorem calculate_crc_is_crc_xmodem :
  (forall data : bytes, calculate_crc data = spec_crc_xmodem data)
  /\ calculate_crc (repeat 0x00 128) = 0x0000.
Proof.
  split.
  - intros data; unfold calculate_crc, spec_crc_xmodem.
    apply fold_left_ext_eq, crc_update_spec.
  - vm_compute; reflexivity.
Qed.

(** C4.  [calculate_checksum] returns the arithmetic sum of the bytes of its
    argument modulo 256, for a payload of any length and so for the 128-byte
    payloads of the protocol; on 128 bytes of 0xFF it returns 0x80. *)
Theorem calculate_checksum_is_sum_mod_256 :
  (forall P : bytes, calculate_checksum P = fold_right Z.add 0 P mod 256)
  /\ calculate_checksum (repeat 0xFF 128) = 0x80.
Proof.
  split.
  - intros P; unfold calculate_checksum; rewrite land_0xFF, py_sum_arith.
    reflexivity.
  - vm_compute; reflexivity.
Qed.

(** ** Framing *)

Lemma land_0xFF_byte (n : Z) : 0 <= n <= 255 -> Z.land n 0xFF = n.
Proof. intros H; rewrite land_0xFF; apply Z.mod_small; lia. Qed.

Lemma build_packet_layout (use_crc : bool) (block_number : Z) (block : bytes) :
  build_packet use_crc block_number block =
  SOH ++ [Z.land block_number 0xFF; 255 - Z.land block_number 0xFF] ++ block
      ++ (if use_crc
          then [Z.land (Z.shiftr (calculate_crc block) 8) 0xFF;
                Z.land (calculate_crc block) 0xFF]
          else [calculate_checksum block]).
Proof.
  unfold build_packet; destruct use_crc; cbv zeta;
    repeat rewrite <- app_assoc; reflexivity.
Qed.



(** ** Padding *)

Lemma bytes_mul_single (x n : Z) : bytes_mul [x] n = repeat x (Z.to_nat n).
Proof.
  unfold bytes_mul; induction (Z.to_nat n) as [|k IH]; simpl.
  - reflexivity.
  - now rewrite IH.
Qed.

Lemma repeat_snoc {A : Type} (x : A) (n : nat) :
  repeat x (S n) = repeat x n ++ [x].
Proof.
  induction n as [|n IH]; simpl.
  - reflexivity.
  - simpl in IH; now rewrite <- IH.
Qed.

Lemma remove_padding_unfold (fuel : nat) (received_data : bytes) :
  remove_padding fuel received_data =
  if truthy received_data && (last received_data 0 =? nth 0 PADDING 0) then
    match fuel with
    | O => out_of_fuel
    | S fuel' => remove_padding fuel' (removelast received_data)
    end
  else ret received_data.
Proof. destruct fuel; reflexivity. Qed.

(** Data that does not end with the padding byte is left as it is. *)
Lemma remove_padding_clean (fuel : nat) (F : bytes) :
  (forall F', F <> F' ++ PADDING) -> remove_padding fuel F = ret F.
Proof.
  intros H; rewrite remove_padding_unfold.
  destruct F as [|x F _] using rev_ind; [reflexivity|].
  rewrite last_last.
  destruct (Z.eqb_spec x (nth 0 PADDING 0)) as [->|]; [|now rewrite andb_false_r].
  exfalso; apply (H F); reflexivity.
Qed.

(** Each iteration of the loop pops one trailing padding byte. *)
Lemma remove_padding_trailing (n fuel : nat) (F : bytes) :
  remove_padding (n + fuel) (F ++ repeat 0x1a n) = remove_padding fuel F.
Proof.
  induction n as [|n IH].
  - simpl; now rewrite app_nil_r.
  - rewrite repeat_snoc, app_assoc, remove_padding_unfold, last_last.
    simpl nth; rewrite Z.eqb_refl, andb_true_r.
    replace (truthy ((F ++ repeat 0x1a n) ++ [0x1a])) with true
      by (destruct (F ++ repeat 0x1a n); reflexivity).
    simpl plus; cbv iota; rewrite removelast_last; exact IH.
Qed.

Lemma pad_file_content_cases (F : bytes) :
  pad_file_content F =
  F ++ repeat 0x1a (if len F mod 128 =? 0 then 0
                    else Z.to_nat (128 - len F mod 128)).
Proof.
  unfold pad_file_content, BLOCK_SIZE, PADDING; cbv zeta.
  assert (R : 0 <= len F mod 128 < 128) by (apply Z.mod_pos_bound; lia).
  rewrite bytes_mul_single.
  destruct (Z.eqb_spec (len F mod 128) 0) as [E|E].
  - rewrite E; simpl; now rewrite app_nil_r.
  - destruct (Z.ltb_spec (128 - len F mod 128) 128); [reflexivity | lia].
Qed.

(** C1.  Padding round trip: when [F] does not end with the byte 0x1A, the
    payload that [send_file] pads is [F] followed by [128 - |F| mod 128]
    bytes of 0x1A if [|F|] is not a multiple of 128 and [F] itself otherwise,
    and the loop with which [receive_file] removes the padding turns that
    payload back into [F]. *)
Theorem padding_round_trip (F : bytes) (w : World) :
  (forall F', F <> F' ++ PADDING) ->
  pad_file_content F =
    (if len F mod 128 =? 0 then F
     else F ++ repeat 0x1a (Z.to_nat (128 - len F mod 128)))
  /\ remove_padding (length (pad_file_content F)) (pad_file_content F) w
     = Some (F, w).
Proof.
  intros H; split.
  - rewrite pad_file_content_cases.
    destruct (len F mod 128 =? 0); [apply app_nil_r | reflexivity].
  - rewrite pad_file_content_cases, length_app, repeat_length, Nat.add_comm.
    rewrite remove_padding_trailing, remove_padding_clean by exact H.
    reflexivity.
Qed.

Lemma padding_round_trip_witness :
  pad_file_content [0x48; 0x69] =
    (if len [0x48; 0x69] mod 128 =? 0 then [0x48; 0x69]
     else [0x48; 0x69] ++ repeat 0x1a (Z.to_nat (128 - len [0x48; 0x69] mod 128)))
  /\ remove_padding (length (pad_file_content [0x48; 0x69]))
                    (pad_file_content [0x48; 0x69]) (mkWorld [] [] 0 None Writable)
     = Some ([0x48; 0x69], mkWorld [] [] 0 None Writable).
Proof.
  apply (padding_round_trip [0x48; 0x69]).
  intros F' E; apply (f_equal (fun l => last l 0)) in E.
  unfold PADDING in E; rewrite last_last in E; discriminate E.
Defined.

(** ** Splitting into blocks *)

Lemma split_blocks_by_index (l : bytes) :
  split_blocks l =
  map (fun k => firstn 128 (skipn (k * 128) l))
      (seq 0 (Z.to_nat ((len l + 127) / 128))).
Proof.
  unfold split_blocks, py_range, BLOCK_SIZE.
  replace (len l - 0 + 128 - 1) with (len l + 127) by lia.
  rewrite map_map; apply map_ext; intros k; unfold py_slice.
  replace (0 + Z.of_nat k * 128 + 128 - (0 + Z.of_nat k * 128)) with 128 by lia.
  replace (Z.to_nat (0 + Z.of_nat k * 128)) with (k * 128)%nat by lia.
  reflexivity.
Qed.

Lemma split_blocks_nil : split_blocks [] = [].
Proof. reflexivity. Qed.

(** The first block is the first 128 bytes, the other blocks are the blocks
    of the rest. *)
Lemma split_blocks_cons (l : bytes) :
  l <> [] -> split_blocks l = firstn 128 l :: split_blocks (skipn 128 l).
Proof.
  intros Hl; rewrite !split_blocks_by_index.
  assert (Hpos : 0 < len l)
    by (unfold len; destruct l; [contradiction | simpl length; lia]).
  assert (Hcount : Z.to_nat ((len l + 127) / 128) =
                   S (Z.to_nat ((len (skipn 128 l) + 127) / 128))).
  { unfold len in *; rewrite length_skipn.
    destruct (Z.lt_ge_cases (Z.of_nat (length l)) 128) as [L|L].
    - replace (length l - 128)%nat with 0%nat by lia.
      replace ((Z.of_nat (length l) + 127) / 128) with 1; [reflexivity|].
      apply Z.div_unique with (r := Z.of_nat (length l) - 1); lia.
    - replace (Z.of_nat (length l) + 127)
        with (Z.of_nat (length l - 128) + 127 + 1 * 128) by lia.
      rewrite Z.div_add by lia.
      assert (0 <= (Z.of_nat (length l - 128) + 127) / 128)
        by (apply Z.div_pos; lia).
      lia. }
  rewrite Hcount, <- cons_seq, map_cons, <- seq_shift, map_map.
  change (skipn (0 * 128) l) with l; f_equal.
  apply map_ext; intros k.
  rewrite skipn_skipn; do 2 f_equal; lia.
Qed.

(** The blocks, put one after the other, are the data that was split. *)
Lemma split_blocks_concat (l : bytes) : concat (split_blocks l) = l.
Proof.
  remember (length l) as n eqn:Hn; revert l Hn.
  induction n as [n IH] using lt_wf_ind; intros l Hn.
  destruct l as [|b l]; [reflexivity|].
  rewrite split_blocks_cons by discriminate.
  rewrite concat_cons, (IH (length (skipn 128 (b :: l)))).
  - apply firstn_skipn.
  - rewrite length_skipn; subst n; cbn [length]; lia.
  - reflexivity.
Qed.

(** ** The sender *)

Lemma ser_read_one (w : World) :
  ser_read 1 w = Some (read_result (event (rx w) 0), after_read w).
Proof.
  unfold ser_read, after_read, event; destruct (rx w) as [|[b|] line];
    reflexivity.
Qed.

Lemma bytes_eqb_read_result (e : option Z) (x : Z) :
  bytes_eqb (read_result e) [x] = is_byte x e.
Proof. destruct e as [b|]; simpl; [apply andb_true_r | reflexivity]. Qed.

Lemma event_tl (line : list (option Z)) (i : nat) :
  event (tl line) i = event line (S i).
Proof. unfold event; destruct line; [destruct i|]; reflexivity. Qed.

Lemma skipn_tl {A : Type} (k : nat) (l : list A) :
  skipn k (tl l) = skipn (S k) l.
Proof. destruct l; [now rewrite skipn_nil|reflexivity]. Qed.

Lemma send_block_loop_unfold fuel use_crc block_number block retries :
  send_block_loop fuel use_crc block_number block retries =
  if retries <? RETRY_LIMIT then
    match fuel with
    | O => out_of_fuel
    | S fuel' =>
      let packet := build_packet use_crc block_number block in
      ser_write packet ;;
      ser_flush ;;
      response <- ser_read 1 ;;
      if bytes_eqb response ACK then ret (Break retries)
      else if bytes_eqb response NAK || bytes_eqb response C then
        send_block_loop fuel' use_crc block_number block (retries + 1)
      else if bytes_eqb response CAN then ret (Return false)
      else send_block_loop fuel' use_crc block_number block (retries + 1)
    end
  else ret (Break retries).
Proof. destruct fuel; reflexivity. Qed.

(** What one attempt does with the response event it reads. *)
Lemma send_attempt fuel use_crc block_number block retries w :
  retries < RETRY_LIMIT ->
  let w1 := after_read (wrote (build_packet use_crc block_number block) w) in
  send_block_loop (S fuel) use_crc block_number block retries w =
  if is_byte 0x06 (event (rx w) 0) then Some (Break retries, w1)
  else if is_byte 0x18 (event (rx w) 0) then Some (Return false, w1)
  else send_block_loop fuel use_crc block_number block (retries + 1) w1.
Proof.
  intros H w1; rewrite send_block_loop_unfold.
  destruct (Z.ltb_spec retries RETRY_LIMIT); [|lia].
  cbv zeta; unfold bind at 1; unfold ser_write.
  unfold bind at 1; unfold ser_flush, ret at 1.
  unfold bind at 1; rewrite ser_read_one.
  change (rx (mkWorld (rx w) _ _ _ _)) with (rx w).
  fold (wrote (build_packet use_crc block_number block) w); fold w1.
  destruct (event (rx w) 0) as [b|]; [|reflexivity].
  unfold read_result, is_byte, ACK, NAK, C, CAN, bytes_eqb.
  rewrite !andb_true_r.
  destruct (Z.eqb_spec b 6); [reflexivity|].
  destruct (Z.eqb_spec b 21) as [->|]; [reflexivity|].
  destruct (Z.eqb_spec b 67) as [->|]; [reflexivity|].
  destruct (Z.eqb_spec b 24); reflexivity.
Qed.

Lemma rx_after_read w : rx (after_read w) = tl (rx w).
Proof. reflexivity. Qed.

Lemma tx_after_read w : tx (after_read w) = tx w.
Proof. reflexivity. Qed.

Lemma first_attempt_facts (packet : bytes) (w : World) :
  let w1 := after_read (wrote packet w) in
  (forall i, (i < 1 - 1)%nat -> asks_retry (event (rx w) i) = true)
  /\ rx w1 = skipn 1 (rx w)
  /\ tx w1 = tx w ++ concat (repeat packet 1)
  /\ disk w1 = disk w.
Proof.
  simpl; rewrite app_nil_r.
  split; [intros i Hi; lia|].
  split; [destruct (rx w); reflexivity|].
  split; reflexivity.
Qed.

(** A run of the retry loop of one block, entered with [retries] and with
    budget for the attempts that are left: it makes [k] attempts, each of
    which writes the same packet and reads one response event, and it ends
    on ACK, on CAN, or with the retry limit reached. *)
Lemma send_block_loop_run use_crc block_number block fuel :
  forall retries w,
    0 <= retries -> retries + Z.of_nat (S fuel) = RETRY_LIMIT ->
    let packet := build_packet use_crc block_number block in
    let run := send_block_loop (S fuel) use_crc block_number block retries w in
    exists (k : nat) (w1 : World),
      (1 <= k <= S fuel)%nat
      /\ (forall i, (i < k - 1)%nat -> asks_retry (event (rx w) i) = true)
      /\ rx w1 = skipn k (rx w)
      /\ tx w1 = tx w ++ concat (repeat packet k)
      /\ disk w1 = disk w
      /\ ((is_byte 0x06 (event (rx w) (k - 1)) = true
           /\ run = Some (Break (retries + Z.of_nat k - 1), w1))
          \/ (is_byte 0x18 (event (rx w) (k - 1)) = true
              /\ run = Some (Return false, w1))
          \/ (k = S fuel
              /\ asks_retry (event (rx w) (k - 1)) = true
              /\ run = Some (Break RETRY_LIMIT, w1))).
Proof.
  induction fuel as [|fuel IH]; intros retries w H0 HL packet run;
    subst run; rewrite send_attempt by (unfold RETRY_LIMIT in *; lia);
    cbv zeta; fold packet;
    pose proof (first_attempt_facts packet w) as Hone; cbv zeta in Hone;
    set (w1 := after_read (wrote packet w)) in *;
    destruct (is_byte 6 (event (rx w) 0)) eqn:Ack;
    try (exists 1%nat, w1; split; [lia|];
         repeat (split; [apply Hone|]);
         left; split; [exact Ack | do 3 f_equal; lia]);
    destruct (is_byte 24 (event (rx w) 0)) eqn:Can;
    try (exists 1%nat, w1; split; [lia|];
         repeat (split; [apply Hone|]);
         right; left; split; [exact Can | reflexivity]).
  - exists 1%nat, w1; split; [lia|].
    repeat (split; [apply Hone|]).
    right; right; repeat split.
    + unfold asks_retry; simpl Nat.sub; now rewrite Ack, Can.
    + rewrite send_block_loop_unfold.
      destruct (Z.ltb_spec (retries + 1) RETRY_LIMIT); [lia|].
      unfold ret; do 3 f_equal; lia.
  - destruct (IH (retries + 1) w1)
      as (k & w2 & Hk & Hretry & Hrx & Htx & Hd & Hend); [lia | lia |].
    exists (S k), w2.
    assert (Hev : forall i, event (rx w1) i = event (rx w) (S i))
      by (intros i; apply event_tl).
    replace (S k - 1)%nat with (S (k - 1)) by lia.
    split; [lia|]. split; [|split; [|split; [|split]]].
    + intros [|i] Hi.
      * unfold asks_retry; now rewrite Ack, Can.
      * rewrite <- Hev; apply Hretry; lia.
    + rewrite Hrx; apply skipn_tl.
    + rewrite Htx; simpl; now rewrite <- app_assoc.
    + rewrite Hd; reflexivity.
    + rewrite <- Hev.
      destruct Hend as [[A E]|[[A E]|(K & A & E)]].
      * left; split; [exact A|]; rewrite E; do 3 f_equal; lia.
      * right; left; split; [exact A | exact E].
      * right; right; repeat split; [lia | exact A | exact E].
Qed.

(** ** The handshake wait of the sender *)

Lemma wait_initiate_unfold fuel start_time :
  wait_initiate fuel start_time =
  (now <- time_time ;;
   if now - start_time <? RECV_TIMEOUT then
     match fuel with
     | O => out_of_fuel
     | S fuel' =>
       data <- ser_read 1 ;;
       if truthy data then ret (Some data)
       else wait_initiate fuel' start_time
     end
   else ret None).
Proof. destruct fuel; reflexivity. Qed.

(** A byte that arrives after [k] seconds of silence, inside the window, is
    taken as the handshake byte. *)
Lemma wait_initiate_byte (k : nat) :
  forall fuel start_time w b rest,
    (k < fuel)%nat ->
    clock w - start_time + Z.of_nat k < RECV_TIMEOUT ->
    rx w = repeat None k ++ Some b :: rest ->
    wait_initiate fuel start_time w =
    Some (Some [b], mkWorld rest (tx w) (clock w + Z.of_nat k)
                            (disk w) (disk_writable w)).
Proof.
  induction k as [|k IH]; intros fuel start_time w b rest Hf Hc Hrx;
    (destruct fuel as [|fuel]; [lia|]);
    rewrite wait_initiate_unfold; unfold bind at 1, time_time;
    (destruct (Z.ltb_spec (clock w - start_time) RECV_TIMEOUT); [|lia]);
    unfold bind at 1; rewrite ser_read_one; unfold after_read, event;
    rewrite Hrx; simpl.
  - unfold ret; rewrite Z.add_0_r; reflexivity.
  - rewrite (IH fuel start_time _ b rest); simpl; try lia.
    + do 3 f_equal; unfold PORT_TIMEOUT; lia.
    + unfold PORT_TIMEOUT; lia.
    + reflexivity.
Qed.

(** When the line stays silent until the window closes, no handshake byte is
    found and nothing was written. *)
Lemma wait_initiate_silence (fuel : nat) :
  forall start_time w,
    Z.of_nat fuel = RECV_TIMEOUT - (clock w - start_time) ->
    (forall i, (i < fuel)%nat -> event (rx w) i = None) ->
    exists w', wait_initiate fuel start_time w = Some (None, w')
               /\ tx w' = tx w /\ disk w' = disk w.
Proof.
  induction fuel as [|fuel IH]; intros start_time w Hc Hs;
    rewrite wait_initiate_unfold; unfold bind at 1, time_time.
  - destruct (Z.ltb_spec (clock w - start_time) RECV_TIMEOUT); [lia|].
    exists w; repeat split.
  - destruct (Z.ltb_spec (clock w - start_time) RECV_TIMEOUT); [|lia].
    unfold bind at 1; rewrite ser_read_one, (Hs 0%nat) by lia.
    simpl truthy; cbv iota.
    destruct (IH start_time (after_read w)) as (w' & E & T & D).
    + unfold after_read; rewrite (Hs 0%nat) by lia; simpl clock.
      unfold PORT_TIMEOUT; lia.
    + intros i Hi; rewrite rx_after_read, event_tl; apply Hs; lia.
    + exists w'; repeat split; assumption.
Qed.

(** ** The end of transmission *)

Lemma send_eot_loop_unfold fuel retries :
  send_eot_loop fuel retries =
  if retries <? RETRY_LIMIT then
    match fuel with
    | O => out_of_fuel
    | S fuel' =>
      ser_write EOT ;;
      response <- ser_read 1 ;;
      if bytes_eqb response ACK then ret true
      else
        time_sleep 1 ;;
        send_eot_loop fuel' (retries + 1)
    end
  else ret false.
Proof. destruct fuel; reflexivity. Qed.

(** The EOT loop ends: it writes EOT [n] times and nothing else, and either
    it saw ACK after the last one or it gave up after the retry limit. *)
Lemma send_eot_loop_run (fuel : nat) :
  forall retries w,
    0 <= retries -> retries + Z.of_nat fuel = RETRY_LIMIT ->
    exists (r : bool) (w' : World) (n : nat),
      send_eot_loop fuel retries w = Some (r, w')
      /\ tx w' = tx w ++ repeat 0x04 n
      /\ disk w' = disk w
      /\ (n <= fuel)%nat
      /\ (if r then (1 <= n)%nat /\ is_byte 0x06 (event (rx w) (n - 1)) = true
          else n = fuel).
Proof.
  induction fuel as [|fuel IH]; intros retries w H0 HL;
    rewrite send_eot_loop_unfold.
  - destruct (Z.ltb_spec retries RETRY_LIMIT); [lia|].
    exists false, w, 0%nat; simpl; rewrite app_nil_r; repeat split; lia.
  - destruct (Z.ltb_spec retries RETRY_LIMIT); [|lia].
    unfold bind at 1, ser_write; unfold bind at 1; rewrite ser_read_one.
    change (rx (mkWorld (rx w) _ _ _ _)) with (rx w).
    fold (wrote EOT w).
    unfold ACK; rewrite bytes_eqb_read_result.
    destruct (is_byte 6 (event (rx w) 0)) eqn:E0.
    + exists true, (after_read (wrote EOT w)), 1%nat; simpl.
      rewrite E0; repeat split; lia.
    + unfold bind at 1, time_sleep.
      match goal with
      | |- context [send_eot_loop _ _ ?w1] =>
        destruct (IH (retries + 1) w1) as (r & w' & n & E & T & D & Hn & Hr);
          [lia | lia |]
      end.
      exists r, w', (S n); rewrite E, T, D; simpl; rewrite <- app_assoc.
      split; [reflexivity|]. split; [reflexivity|].
      split; [reflexivity|]. split; [lia|].
      destruct r; [|lia].
      destruct Hr as [Hn1 Hb]; split; [lia|].
      cbn [rx after_read wrote] in Hb; rewrite event_tl in Hb.
      replace (n - 0)%nat with (S (n - 1)) by lia; exact Hb.
Qed.

(** ** The loop over the blocks *)

Lemma send_blocks_cons use_crc block blocks' block_number w :
  send_blocks use_crc (block :: blocks') block_number w =
  match send_block_loop (Z.to_nat RETRY_LIMIT) use_crc block_number block 0 w
  with
  | Some (Return b, w1) => Some (Return b, w1)
  | Some (Continue retries, w1) | Some (Break retries, w1) =>
    if retries >=? RETRY_LIMIT
    then Some (Return false, wrote (CAN ++ CAN) w1)
    else send_blocks use_crc blocks' ((block_number + 1) mod 256) w1
  | None => None
  end.
Proof.
  cbn [send_blocks]; unfold bind at 1.
  destruct (send_block_loop (Z.to_nat RETRY_LIMIT) use_crc block_number block 0 w)
    as [[[r|r|b] w1]|]; try reflexivity.
  all: destruct (r >=? RETRY_LIMIT); reflexivity.
Qed.

(** The attempts that the loop over the blocks makes for its first block,
    and how it goes on after them. *)
Lemma send_blocks_attempts
        (use_crc : bool) (block : bytes) (blocks' : list bytes)
        (block_number : Z) (w : World) :
  let packet := build_packet use_crc block_number block in
  let run := send_blocks use_crc (block :: blocks') block_number w in
  exists (k : nat) (w1 : World),
    (1 <= k <= 10)%nat
    /\ (forall i, (i < k - 1)%nat -> asks_retry (event (rx w) i) = true)
    /\ rx w1 = skipn k (rx w)
    /\ tx w1 = tx w ++ concat (repeat packet k)
    /\ ((is_byte 0x06 (event (rx w) (k - 1)) = true
         /\ run = send_blocks use_crc blocks' ((block_number + 1) mod 256) w1)
        \/ (is_byte 0x18 (event (rx w) (k - 1)) = true
            /\ run = Some (Return false, w1))
        \/ (k = 10%nat
            /\ asks_retry (event (rx w) (k - 1)) = true
            /\ run = Some (Return false, wrote (CAN ++ CAN) w1))).
Proof.
  intros packet run.
  destruct (send_block_loop_run use_crc block_number block 9 0 w)
    as (k & w1 & Hk & Hretry & Hrx & Htx & Hd & Hend);
    [lia | reflexivity |].
  exists k, w1; fold packet in Htx.
  split; [lia|]. split; [exact Hretry|]. split; [exact Hrx|].
  split; [exact Htx|].
  subst run; rewrite send_blocks_cons.
  change (Z.to_nat RETRY_LIMIT) with 10%nat.
  destruct Hend as [[A E]|[[A E]|(K & A & E)]]; rewrite E.
  - left; split; [exact A|].
    destruct (Z.geb_spec (0 + Z.of_nat k - 1) RETRY_LIMIT) as [G|G];
      [unfold RETRY_LIMIT in G; lia | reflexivity].
  - right; left; split; [exact A | reflexivity].
  - right; right; split; [exact K|]; split; [exact A | reflexivity].
Qed.

(** The loop over the blocks ends, and it only adds to what was written. *)
Lemma send_blocks_total (use_crc : bool) (blocks : list bytes) :
  forall block_number w,
  exists r w' more,
    send_blocks use_crc blocks block_number w = Some (r, w')
    /\ tx w' = tx w ++ more.
Proof.
  induction blocks as [|block blocks IH]; intros block_number w.
  - exists (Break block_number), w, []; simpl; now rewrite app_nil_r.
  - destruct (send_blocks_attempts use_crc block blocks block_number w)
      as (k & w1 & _ & _ & _ & Htx & [[_ E]|[[_ E]|(_ & _ & E)]]).
    + destruct (IH ((block_number + 1) mod 256) w1) as (r & w' & more & E' & T').
      exists r, w', (concat (repeat (build_packet use_crc block_number block) k)
                     ++ more).
      rewrite E, E', T', Htx, app_assoc; split; reflexivity.
    + eexists _, w1, _; rewrite E; split; [reflexivity | exact Htx].
    + eexists _, _, _; rewrite E; split; [reflexivity|].
      simpl; rewrite Htx, <- app_assoc; reflexivity.
Qed.

(** The first thing the loop over a non-empty list of blocks writes is the
    packet of its first block. *)
Lemma send_blocks_first_packet use_crc block blocks block_number w :
  exists r w' more,
    send_blocks use_crc (block :: blocks) block_number w = Some (r, w')
    /\ tx w' = tx w ++ build_packet use_crc block_number block ++ more.
Proof.
  destruct (send_blocks_attempts use_crc block blocks block_number w)
    as (k & w1 & Hk & _ & _ & Htx & Hend).
  destruct k as [|k]; [lia|]; cbn [repeat concat] in Htx.
  destruct Hend as [[_ E]|[[_ E]|(_ & _ & E)]].
  - destruct (send_blocks_total use_crc blocks ((block_number + 1) mod 256) w1)
      as (r & w' & more & E' & T').
    eexists r, w', _; rewrite E, E', T', Htx, <- !app_assoc.
    split; reflexivity.
  - eexists _, w1, _; rewrite E; split; [reflexivity | exact Htx].
  - eexists _, _, _; rewrite E; split; [reflexivity|].
    simpl; rewrite Htx, <- !app_assoc; reflexivity.
Qed.

(** C9.  Retry discipline of the sender.  For the block at hand
    [send_file] makes [k] attempts, between 1 and 10.  Every attempt writes
    the same packet (same block number, payload and trailer) and reads one
    response event; each of the first [k - 1] responses was a NAK, a 'C', a
    timeout or some other byte that is neither ACK nor CAN, and made the
    sender write the packet again.  The attempts end in one of three ways:
    the last response is ACK, and only then does the sender go on to the
    next block with the block number advanced by one modulo 256; or it is
    CAN, and the sender returns failure; or ten responses in a row asked for
    a retry, and the sender writes CAN CAN and returns failure. *)
Theorem sender_retry_discipline
        (use_crc : bool) (block : bytes) (blocks' : list bytes)
        (block_number : Z) (w : World) :
  let packet := build_packet use_crc block_number block in
  let run := send_blocks use_crc (block :: blocks') block_number w in
  exists (k : nat) (w1 : World),
    (1 <= k <= 10)%nat
    /\ (forall i, (i < k - 1)%nat -> asks_retry (event (rx w) i) = true)
    /\ rx w1 = skipn k (rx w)
    /\ tx w1 = tx w ++ concat (repeat packet k)
    /\ ((is_byte 0x06 (event (rx w) (k - 1)) = true
         /\ run = send_blocks use_crc blocks' ((block_number + 1) mod 256) w1)
        \/ (is_byte 0x18 (event (rx w) (k - 1)) = true
            /\ run = Some (Return false, w1))
        \/ (k = 10%nat
            /\ asks_retry (event (rx w) (k - 1)) = true
            /\ run = Some (Return false, wrote (CAN ++ CAN) w1))).
Proof. apply send_blocks_attempts. Qed.

(** ** The whole sender *)

(** With a handshake byte [b] inside the window, [send_file] goes on to the
    blocks; only the byte 'C' can select the CRC. *)
Lemma send_file_handshake_byte F checksum_type w (k : nat) b rest :
  (k < 10)%nat ->
  rx w = repeat None k ++ Some b :: rest ->
  send_file (Some F) checksum_type w =
  after_handshake ((b =? 0x43) && ChecksumType_eqb checksum_type CRC)
                  (split_blocks (pad_file_content F))
                  (mkWorld rest (tx w) (clock w + Z.of_nat k)
                           (disk w) (disk_writable w)).
Proof.
  intros Hk Hrx; unfold send_file; cbv zeta.
  unfold bind at 1, time_time; unfold bind at 1.
  rewrite (wait_initiate_byte k _ _ w b rest);
    [ | change (Z.to_nat RECV_TIMEOUT) with 10%nat; lia
      | unfold RECV_TIMEOUT; lia | exact Hrx].
  change (negb (truthy [b])) with false; cbv iota.
  change (bytes_eqb [b] C) with ((b =? 67) && true).
  rewrite andb_true_r; reflexivity.
Qed.

(** With a silent line, [send_file] returns [False] and has written
    nothing. *)
Lemma send_file_silence file checksum_type w :
  (forall i, (i < 10)%nat -> event (rx w) i = None) ->
  exists w', send_file file checksum_type w = Some (false, w')
             /\ tx w' = tx w.
Proof.
  intros Hs; destruct file as [F|]; [|exists w; split; reflexivity].
  unfold send_file; cbv zeta.
  unfold bind at 1, time_time; unfold bind at 1.
  destruct (wait_initiate_silence (Z.to_nat RECV_TIMEOUT) (clock w) w)
    as (w' & E & T & _).
  - change (Z.of_nat (Z.to_nat RECV_TIMEOUT)) with 10.
    unfold RECV_TIMEOUT; lia.
  - exact Hs.
  - rewrite E; exists w'; split; [reflexivity | exact T].
Qed.

(** After the handshake the sender ends, and when there is a block it has
    written the packet of block 1 first. *)
Lemma after_handshake_first_packet use_crc block blocks w :
  exists r w' more,
    after_handshake use_crc (block :: blocks) w = Some (r, w')
    /\ tx w' = tx w ++ build_packet use_crc 1 block ++ more.
Proof.
  unfold after_handshake, bind.
  destruct (send_blocks_first_packet use_crc block blocks 1 w)
    as (r & w1 & more & E & T); rewrite E.
  destruct r as [n|n|b];
    try (destruct (send_eot_loop_run 10 0 w1) as (r' & w' & n' & E' & T' & _);
         [lia | reflexivity |];
         change (Z.to_nat RETRY_LIMIT) with 10%nat; rewrite E';
         exists r', w', (more ++ repeat 0x04 n');
         rewrite T', T, <- !app_assoc; split; reflexivity).
  exists b, w1, more; split; [reflexivity | exact T].
Qed.

(** Without blocks the sender goes straight to EOT. *)
Lemma after_handshake_no_block use_crc w :
  exists r w' (n : nat),
    after_handshake use_crc [] w = Some (r, w')
    /\ (1 <= n <= 10)%nat
    /\ tx w' = tx w ++ repeat 0x04 n.
Proof.
  unfold after_handshake, bind; simpl send_blocks; unfold ret at 1.
  destruct (send_eot_loop_run 10 0 w) as (r & w' & n & E & T & _ & Hn & Hr);
    [lia | reflexivity |].
  change (Z.to_nat RETRY_LIMIT) with 10%nat; rewrite E.
  exists r, w', n; split; [reflexivity|]; split; [|exact T].
  destruct r; lia.
Qed.

(** C10.  A file whose length is a multiple of 128, the empty file among
    them, is sent without any padding byte: the padding size that line 77
    computes is 128, which line 78 rejects.  The empty file has no block, and
    once a handshake byte has arrived the sender of the empty file writes
    nothing but EOT, at least once and at most ten times. *)
Theorem exact_multiple_is_not_padded :
  (forall F : bytes,
      len F mod BLOCK_SIZE = 0 ->
      BLOCK_SIZE - len F mod BLOCK_SIZE = BLOCK_SIZE /\ pad_file_content F = F)
  /\ split_blocks (pad_file_content []) = []
  /\ (forall checksum_type w (k : nat) b rest,
         (k < 10)%nat ->
         rx w = repeat None k ++ Some b :: rest ->
         exists r w' (n : nat),
           send_file (Some []) checksum_type w = Some (r, w')
           /\ (1 <= n <= 10)%nat
           /\ tx w' = tx w ++ repeat 0x04 n).
Proof.
  split; [|split].
  - intros F H; split; [rewrite H; reflexivity|].
    rewrite pad_file_content_cases.
    unfold BLOCK_SIZE in H; rewrite H; simpl; apply app_nil_r.
  - reflexivity.
  - intros checksum_type w k b rest Hk Hrx.
    pose proof (send_file_handshake_byte [] checksum_type w k b rest Hk Hrx)
      as E.
    change (split_blocks (pad_file_content [])) with (@nil bytes) in E.
    destruct (after_handshake_no_block
                ((b =? 0x43) && ChecksumType_eqb checksum_type CRC)
                (mkWorld rest (tx w) (clock w + Z.of_nat k)
                         (disk w) (disk_writable w)))
      as (r & w' & n & E' & Hn & T).
    exists r, w', n; split; [exact (eq_trans E E')|].
    split; [lia | exact T].
Qed.

Lemma exact_multiple_is_not_padded_witness :
  (BLOCK_SIZE - len (repeat 0x41 256) mod BLOCK_SIZE = BLOCK_SIZE
   /\ pad_file_content (repeat 0x41 256) = repeat 0x41 256)
  /\ exists r w' (n : nat),
       send_file (Some []) CRC (mkWorld [None; Some 0x43; Some 0x06] [] 0 None Writable)
       = Some (r, w')
       /\ (1 <= n <= 10)%nat
       /\ tx w' = [] ++ repeat 0x04 n.
Proof.
  split.
  - apply (proj1 exact_multiple_is_not_padded); reflexivity.
  - apply (proj2 (proj2 exact_multiple_is_not_padded) CRC
                 (mkWorld [None; Some 0x43; Some 0x06] [] 0 None Writable)
                 1%nat 0x43 [Some 0x06]); [lia | reflexivity].
Defined.

(** C5, as the code has it.  When no byte arrives inside the ten-second
    window, [send_file] returns failure and has written nothing: no data
    frame is sent.  A first byte that is neither 'C' nor CAN, be it NAK or
    any other byte, does not make the sender abort: it selects the checksum
    and the sender goes on with the transfer, writing the packet of block 1
    when the file is not empty and going straight to EOT when it is. *)
Theorem handshake_unexpected_byte_starts_transfer :
  (forall file checksum_type w,
      (forall i, (i < 10)%nat -> event (rx w) i = None) ->
      exists w', send_file file checksum_type w = Some (false, w')
                 /\ tx w' = tx w)
  /\ (forall F checksum_type w (k : nat) b rest,
         F <> [] ->
         (k < 10)%nat ->
         rx w = repeat None k ++ Some b :: rest ->
         b <> 0x43 ->
         b <> 0x18 ->
         exists r w' more,
           send_file (Some F) checksum_type w = Some (r, w')
           /\ tx w' = tx w ++ build_packet false 1
                                 (firstn 128 (pad_file_content F)) ++ more)
  /\ (forall checksum_type w (k : nat) b rest,
         (k < 10)%nat ->
         rx w = repeat None k ++ Some b :: rest ->
         b <> 0x43 ->
         b <> 0x18 ->
         exists r w' (n : nat),
           send_file (Some []) checksum_type w = Some (r, w')
           /\ (1 <= n <= 10)%nat
           /\ tx w' = tx w ++ repeat 0x04 n).
Proof.
  split; [|split].
  - intros file checksum_type w; apply send_file_silence.
  - intros F checksum_type w k b rest HF Hk Hrx HC _.
    pose proof (send_file_handshake_byte F checksum_type w k b rest Hk Hrx)
      as E.
    rewrite (proj2 (Z.eqb_neq b 0x43) HC) in E; cbn [andb] in E.
    rewrite split_blocks_cons in E
      by (rewrite pad_file_content_cases; destruct F;
          [contradiction | discriminate]).
    destruct (after_handshake_first_packet
                false (firstn 128 (pad_file_content F))
                (split_blocks (skipn 128 (pad_file_content F)))
                (mkWorld rest (tx w) (clock w + Z.of_nat k)
                         (disk w) (disk_writable w)))
      as (r & w' & more & E' & T).
    exists r, w', more; split; [exact (eq_trans E E') | exact T].
  - intros checksum_type w k b rest Hk Hrx _ _.
    pose proof (send_file_handshake_byte [] checksum_type w k b rest Hk Hrx)
      as E.
    change (split_blocks (pad_file_content [])) with (@nil bytes) in E.
    destruct (after_handshake_no_block
                ((b =? 0x43) && ChecksumType_eqb checksum_type CRC)
                (mkWorld rest (tx w) (clock w + Z.of_nat k)
                         (disk w) (disk_writable w)))
      as (r & w' & n & E' & Hn & T).
    exists r, w', n; split; [exact (eq_trans E E')|].
    split; [lia | exact T].
Qed.

Lemma handshake_unexpected_byte_starts_transfer_witness :
  (exists w', send_file (Some [0x55]) CRC (mkWorld [] [] 0 None Writable)
              = Some (false, w') /\ tx w' = [])
  /\ (exists r w' more,
         send_file (Some [0x55]) CRC
                   (mkWorld [Some 0x00; Some 0x06; Some 0x06] [] 0 None Writable)
         = Some (r, w')
         /\ tx w' = [] ++ build_packet false 1
                               (firstn 128 (pad_file_content [0x55])) ++ more)
  /\ (exists r w' (n : nat),
         send_file (Some []) CRC
                   (mkWorld [Some 0x00; Some 0x06] [] 0 None Writable)
         = Some (r, w')
         /\ (1 <= n <= 10)%nat
         /\ tx w' = [] ++ repeat 0x04 n).
Proof.
  split; [|split].
  - apply (proj1 handshake_unexpected_byte_starts_transfer (Some [0x55]) CRC
                 (mkWorld [] [] 0 None Writable)).
    intros i _; unfold event; destruct i; reflexivity.
  - apply (proj1 (proj2 handshake_unexpected_byte_starts_transfer) [0x55] CRC
                 (mkWorld [Some 0x00; Some 0x06; Some 0x06] [] 0 None Writable)
                 0%nat 0x00 [Some 0x06; Some 0x06]);
      [discriminate | lia | reflexivity | discriminate | discriminate].
  - apply (proj2 (proj2 handshake_unexpected_byte_starts_transfer) CRC
                 (mkWorld [Some 0x00; Some 0x06] [] 0 None Writable)
                 0%nat 0x00 [Some 0x06]);
      [lia | reflexivity | discriminate | discriminate].
Defined.

(** C5, as stated, fails: the handshake byte 0x00 is neither 'C' nor NAK,
    yet [send_file] does not abort; it sends the one block of the file in
    checksum mode, then EOT, and returns [True]. *)
Lemma handshake_other_byte_counterexample :
  0x00 <> 0x43 /\ 0x00 <> 0x15
  /\ send_file (Some [0x55]) CRC
               (mkWorld [Some 0x00; Some 0x06; Some 0x06] [] 0 None Writable)
     = Some (true,
             mkWorld [] (build_packet false 1 (0x55 :: repeat 0x1a 127) ++ EOT)
                     0 None Writable).
Proof. repeat split; try discriminate. Qed.

(** ** The receiver: one frame *)

Lemma line_read_exact (d : bytes) (rest : list (option Z)) :
  line_read (length d) (map Some d ++ rest) = (d, rest, false).
Proof.
  induction d as [|b d IH]; simpl.
  - reflexivity.
  - now rewrite IH.
Qed.

Lemma ser_read_exact (n : nat) (d : bytes) (rest : list (option Z)) (w : World) :
  n = length d ->
  rx w = map Some d ++ rest ->
  ser_read n w = Some (d, with_rx rest w).
Proof.
  intros -> Hrx; unfold ser_read; rewrite Hrx, line_read_exact; reflexivity.
Qed.

Lemma len_length {A : Type} (l : list A) (n : nat) :
  len l = Z.of_nat n -> length l = n.
Proof. unfold len; lia. Qed.

(** A frame that passes the tests of lines 192-241 reaches the sequence
    check with its block number and its data. *)
Lemma receive_iteration_valid_frame
      use_crc st (N comp : Z) (data trailer : bytes) rest w :
  rx w = map Some ([N; comp] ++ data ++ trailer) ++ rest ->
  N + comp = 255 ->
  len data = BLOCK_SIZE ->
  trailer_accepted use_crc data trailer = true ->
  receive_iteration use_crc st w = block_received [N] data st (with_rx rest w).
Proof.
  intros Hrx Hsum Hlen Htr.
  rewrite map_app, <- app_assoc in Hrx; simpl in Hrx.
  rewrite map_app, <- app_assoc in Hrx.
  unfold receive_iteration, bind.
  rewrite (ser_read_exact 1 [N] _ w eq_refl Hrx); cbv beta iota.
  change (negb (truthy [N])) with false; cbv beta iota.
  rewrite (ser_read_exact 1 [comp] (map Some data ++ map Some trailer ++ rest))
    by reflexivity.
  cbv beta iota; change (negb (truthy [comp])) with false; cbv beta iota.
  change (block_num_verified [N] [comp]) with (N + comp =? 255).
  rewrite (proj2 (Z.eqb_eq _ _) Hsum).
  change (negb true) with false; cbv beta iota.
  rewrite (ser_read_exact _ data (map Some trailer ++ rest))
    by (try reflexivity; symmetry; apply len_length; exact Hlen).
  cbv beta iota; rewrite Hlen, Z.eqb_refl; change (negb true) with false; cbv beta iota.
  unfold trailer_accepted in Htr; destruct use_crc;
    apply andb_prop in Htr; destruct Htr as [Hl Hv];
    apply Z.eqb_eq in Hl.
  - rewrite (ser_read_exact 2 trailer rest)
      by (try reflexivity; symmetry; apply len_length; exact Hl).
    cbv beta iota; rewrite Hl, Hv; reflexivity.
  - rewrite (ser_read_exact 1 trailer rest)
      by (try reflexivity; symmetry; apply len_length; exact Hl).
    cbv beta iota.
    replace (negb (truthy trailer)) with false
      by (destruct trailer; [discriminate Hl | reflexivity]).
    rewrite Hv; reflexivity.
Qed.

(** The check for EOT leaves the loop state as it is and writes at most an
    ACK, which it does exactly when it leaves the loop. *)
Lemma check_eot_cases st w :
  (check_eot st w = Some (Break st, wrote ACK (after_read w))
   /\ is_byte 0x04 (event (rx w) 0) = true)
  \/ (check_eot st w = Some (Continue st, after_read w)
      /\ is_byte 0x04 (event (rx w) 0) = false).
Proof.
  unfold check_eot, bind; rewrite ser_read_one.
  unfold EOT; rewrite bytes_eqb_read_result.
  destruct (is_byte 4 (event (rx w) 0)).
  - left; split; reflexivity.
  - right; split; [|reflexivity].
    repeat match goal with
           | |- context [if ?c then _ else _] => destruct c
           end; reflexivity.
Qed.

Lemma previous_block_differs (E : Z) : (E - 1) mod 256 <> E.
Proof.
  intros H.
  assert (R : 0 <= (E - 1) mod 256 < 256) by (apply Z.mod_pos_bound; lia).
  destruct (Z.eq_dec E 0) as [->|N0]; [discriminate H|].
  rewrite Z.mod_small in H by lia; lia.
Qed.

(** The two trailer bytes of a packet, put together as line 225 does, give
    back a 16-bit value. *)
Lemma crc_bytes_recombine (c : Z) :
  0 <= c < 65536 ->
  Z.lor (Z.shiftl (Z.land (Z.shiftr c 8) 0xFF) 8) (Z.land c 0xFF) = c.
Proof.
  intros Hc; apply Z.bits_inj'; intros i Hi.
  change 0xFF with (Z.ones 8).
  rewrite Z.lor_spec, Z.land_spec, Z.shiftl_spec by lia.
  destruct (Z.lt_ge_cases i 8) as [L|L].
  - rewrite (Z.testbit_neg_r _ (i - 8)) by lia.
    rewrite Z.ones_spec_low by lia; now rewrite andb_true_r.
  - rewrite Z.land_spec, Z.shiftr_spec by lia.
    rewrite (Z.ones_spec_high 8 i) by lia.
    replace (i - 8 + 8) with i by lia.
    rewrite andb_false_r, orb_false_r.
    destruct (Z.lt_ge_cases i 16) as [L16|L16].
    + rewrite Z.ones_spec_low by lia; now rewrite andb_true_r.
    + rewrite Z.ones_spec_high by lia; rewrite andb_false_r.
      symmetry; rewrite <- (Z.mod_small c (2 ^ 16)) by (change (2 ^ 16) with 65536; lia).
      apply Z.mod_pow2_bits_high; lia.
Qed.

(** The trailer that [build_packet] appends is the one that
    [receive_iteration] accepts, in both modes. *)
Lemma built_trailer_accepted (use_crc : bool) (block : bytes) :
  trailer_accepted use_crc block
    (if use_crc
     then [Z.land (Z.shiftr (calculate_crc block) 8) 0xFF;
           Z.land (calculate_crc block) 0xFF]
     else [calculate_checksum block]) = true.
Proof.
  unfold trailer_accepted; destruct use_crc; cbn [len length nth ord].
  - rewrite crc_bytes_recombine by apply calculate_crc_range.
    apply andb_true_intro; split; [reflexivity | apply Z.eqb_refl].
  - apply andb_true_intro; split; [reflexivity | apply Z.eqb_refl].
Qed.

(** ** The receiver: sequence check *)

Lemma duplicate_frame_step use_crc buf E N comp data trailer rest w :
  rx w = map Some ([N; comp] ++ data ++ trailer) ++ rest ->
  N + comp = 255 ->
  len data = BLOCK_SIZE ->
  trailer_accepted use_crc data trailer = true ->
  N = (E - 1) mod 256 ->
  receive_iteration use_crc (buf, E) w =
  check_eot (buf, E) (wrote ACK (with_rx rest w)).
Proof.
  intros Hrx Hsum Hlen Htr HN.
  rewrite (receive_iteration_valid_frame _ _ N comp data trailer rest)
    by assumption.
  unfold block_received; change (ord [N]) with N.
  destruct (Z.eqb_spec N E) as [HE|_].
  - exfalso; apply (previous_block_differs E); congruence.
  - rewrite (proj2 (Z.eqb_eq _ _) HN); reflexivity.
Qed.

(** C7.  A duplicate of the frame acknowledged last is absorbed.  When the
    frame that the receive loop reads passes the complement test and the
    integrity test and carries the block number [(E - 1) mod 256], where [E]
    is the expected block, the iteration writes ACK, appends nothing to the
    received data and leaves the expected block at [E]; it then either goes
    on with the loop, or, when EOT follows, acknowledges that too and leaves
    the loop.  The output file is not touched. *)
Theorem duplicate_frame_is_absorbed
        (use_crc : bool) (buf : bytes) (E N comp : Z) (data trailer : bytes)
        (rest : list (option Z)) (w : World) :
  rx w = map Some ([N; comp] ++ data ++ trailer) ++ rest ->
  N + comp = 255 ->
  len data = BLOCK_SIZE ->
  trailer_accepted use_crc data trailer = true ->
  N = (E - 1) mod 256 ->
  exists ctl w',
    receive_iteration use_crc (buf, E) w = Some (ctl, w')
    /\ ((ctl = Continue (buf, E) /\ tx w' = tx w ++ ACK)
        \/ (ctl = Break (buf, E) /\ tx w' = tx w ++ ACK ++ ACK))
    /\ disk w' = disk w.
Proof.
  intros Hrx Hsum Hlen Htr HN.
  rewrite (duplicate_frame_step use_crc buf E N comp data trailer rest w)
    by assumption.
  destruct (check_eot_cases (buf, E) (wrote ACK (with_rx rest w)))
    as [[-> _]|[-> _]]; eexists _, _; (split; [reflexivity|]); split;
    try reflexivity.
  - right; split; [reflexivity|]; simpl; now rewrite <- app_assoc.
  - left; split; reflexivity.
Qed.

Lemma duplicate_frame_is_absorbed_witness :
  exists ctl w',
    receive_iteration true (repeat 0x41 128, 2)
      (receiver_on (map Some ([1; 254] ++ repeat 0x41 128 ++ [0x1c; 0xce])
                    ++ [Some 0x04]))
    = Some (ctl, w')
    /\ ((ctl = Continue (repeat 0x41 128, 2)
         /\ tx w' = [] ++ ACK)
        \/ (ctl = Break (repeat 0x41 128, 2)
            /\ tx w' = [] ++ ACK ++ ACK))
    /\ disk w' = None.
Proof.
  apply (duplicate_frame_is_absorbed true (repeat 0x41 128) 2 1 254
           (repeat 0x41 128) [0x1c; 0xce] [Some 0x04]
           (receiver_on (map Some ([1; 254] ++ repeat 0x41 128 ++ [0x1c; 0xce])
                         ++ [Some 0x04])));
    vm_compute; reflexivity.
Defined.

(** ** The output file *)

Lemma keeps_disk_ret {A : Type} (a : A) : keeps_disk (ret a).
Proof. intros w a' w' H; injection H as _ <-; split; reflexivity. Qed.

Lemma keeps_disk_out_of_fuel {A : Type} : keeps_disk (@out_of_fuel A).
Proof. intros w a w' H; discriminate H. Qed.

Lemma keeps_disk_bind {A B : Type} (m : IO A) (k : A -> IO B) :
  keeps_disk m -> (forall a, keeps_disk (k a)) -> keeps_disk (bind m k).
Proof.
  intros Hm Hk w b w' H; unfold bind in H.
  destruct (m w) as [[a w1]|] eqn:E; [|discriminate H].
  destruct (Hm _ _ _ E) as [D1 W1], (Hk a _ _ _ H) as [D2 W2].
  split; congruence.
Qed.

Lemma keeps_disk_ser_read (size : nat) : keeps_disk (ser_read size).
Proof.
  intros w a w' H; unfold ser_read in H.
  destruct (line_read size (rx w)) as [[bs line] t].
  injection H as _ <-; split; reflexivity.
Qed.

Lemma keeps_disk_ser_write (data : bytes) : keeps_disk (ser_write data).
Proof. intros w a w' H; injection H as _ <-; split; reflexivity. Qed.

Lemma keeps_disk_time_sleep (s : Z) : keeps_disk (time_sleep s).
Proof. intros w a w' H; injection H as _ <-; split; reflexivity. Qed.

Create HintDb keeps_disk.

#[local] Hint Resolve keeps_disk_ret keeps_disk_out_of_fuel keeps_disk_ser_read
  keeps_disk_ser_write keeps_disk_time_sleep : keeps_disk.

(** Goes through a computation built from the operations on the line. *)
Ltac keeps_disk_tac :=
  repeat first
    [ solve [auto with keeps_disk]
    | apply keeps_disk_bind; [|intros ?]
    | match goal with
      | |- keeps_disk (if ?c then _ else _) => destruct c
      | |- keeps_disk (let '(_, _) := ?p in _) => destruct p
      end ].

Lemma keeps_disk_receive_handshake_loop fuel use_crc :
  forall retries, keeps_disk (receive_handshake_loop fuel use_crc retries).
Proof.
  induction fuel as [|fuel IH]; intros retries; simpl;
    destruct (retries <? RETRY_LIMIT); keeps_disk_tac.
Qed.

Lemma keeps_disk_check_eot st : keeps_disk (check_eot st).
Proof. unfold check_eot; keeps_disk_tac. Qed.

Lemma keeps_disk_block_received block_num data_block st :
  keeps_disk (block_received block_num data_block st).
Proof.
  unfold block_received; destruct st as [received_data expected_block].
  pose proof keeps_disk_check_eot; keeps_disk_tac.
Qed.

Lemma keeps_disk_receive_iteration use_crc st :
  keeps_disk (receive_iteration use_crc st).
Proof.
  unfold receive_iteration, nak_continue.
  pose proof keeps_disk_block_received; keeps_disk_tac.
Qed.

Lemma keeps_disk_receive_loop fuel use_crc :
  forall st, keeps_disk (receive_loop fuel use_crc st).
Proof.
  induction fuel as [|fuel IH]; intros st; simpl.
  - apply keeps_disk_out_of_fuel.
  - apply keeps_disk_bind; [apply keeps_disk_receive_iteration|].
    intros [st'|st'|b]; auto with keeps_disk.
Qed.

Lemma keeps_disk_remove_padding fuel :
  forall received_data, keeps_disk (remove_padding fuel received_data).
Proof.
  induction fuel as [|fuel IH]; intros received_data; simpl;
    destruct (_ && _); auto with keeps_disk.
Qed.

Lemma out_of_sequence_step use_crc buf E N comp data trailer rest w :
  rx w = map Some ([N; comp] ++ data ++ trailer) ++ rest ->
  N + comp = 255 ->
  len data = BLOCK_SIZE ->
  trailer_accepted use_crc data trailer = true ->
  N <> E ->
  N <> (E - 1) mod 256 ->
  receive_iteration use_crc (buf, E) w =
  Some (Return false, wrote CAN (wrote CAN (with_rx rest w))).
Proof.
  intros Hrx Hsum Hlen Htr HE HP.
  rewrite (receive_iteration_valid_frame _ _ N comp data trailer rest)
    by assumption.
  unfold block_received; change (ord [N]) with N.
  destruct (Z.eqb_spec N E); [contradiction|].
  destruct (Z.eqb_spec N ((E - 1) mod 256)); [contradiction|].
  reflexivity.
Qed.

(** C8.  A frame out of sequence ends the transfer and leaves no output.
    When the frame that the receive loop reads passes the complement test
    and the integrity test and its block number is neither the expected
    block [E] nor [(E - 1) mod 256], the receiver writes CAN twice and
    returns failure, and the output file is as it was: nothing is written to
    it on that path. *)
Theorem out_of_sequence_aborts_without_output
        (fuel : nat) (use_crc : bool) (buf : bytes) (E N comp : Z)
        (data trailer : bytes) (rest : list (option Z)) (w : World) :
  rx w = map Some ([N; comp] ++ data ++ trailer) ++ rest ->
  N + comp = 255 ->
  len data = BLOCK_SIZE ->
  trailer_accepted use_crc data trailer = true ->
  N <> E ->
  N <> (E - 1) mod 256 ->
  exists w',
    receive_transfer (S fuel) use_crc (buf, E) w = Some (false, w')
    /\ tx w' = tx w ++ CAN ++ CAN
    /\ disk w' = disk w.
Proof.
  intros Hrx Hsum Hlen Htr HE HP.
  exists (wrote CAN (wrote CAN (with_rx rest w))).
  unfold receive_transfer, bind; cbn [receive_loop]; unfold bind.
  rewrite (out_of_sequence_step use_crc buf E N comp data trailer rest w)
    by assumption.
  split; [reflexivity|]; split; [|reflexivity].
  simpl; now rewrite <- app_assoc.
Qed.

Lemma out_of_sequence_aborts_without_output_witness :
  exists w',
    receive_transfer 1 true (repeat 0x41 128, 2)
      (receiver_on (map Some ([3; 252] ++ repeat 0x41 128 ++ [0x1c; 0xce])
                    ++ []))
    = Some (false, w')
    /\ tx w' = [] ++ CAN ++ CAN
    /\ disk w' = None.
Proof.
  apply (out_of_sequence_aborts_without_output 0%nat true
           (repeat 0x41 128) 2 3 252 (repeat 0x41 128) [0x1c; 0xce] []
           (receiver_on (map Some ([3; 252] ++ repeat 0x41 128
                                            ++ [0x1c; 0xce]) ++ [])));
    vm_compute; try reflexivity; discriminate.
Defined.

(** ** The receiver: the byte after a block *)

(** The loop, given enough fuel, goes the way its first iterations go. *)
Lemma receive_loop_after (n : nat) use_crc :
  forall fuel st w,
    receive_loop (n + fuel) use_crc st w =
    match receive_iterations n use_crc st w with
    | Some (Continue st', w') => receive_loop fuel use_crc st' w'
    | other => other
    end.
Proof.
  induction n as [|n IH]; intros fuel st w.
  - reflexivity.
  - cbn [Nat.add receive_loop receive_iterations]; unfold bind.
    destruct (receive_iteration use_crc st w) as [[[st'|st'|b] w']|];
      try reflexivity.
    apply IH.
Qed.

(** More fuel does not change a result. *)
Lemma receive_loop_more_fuel (fuel : nat) use_crc :
  forall (extra : nat) st w r,
    receive_loop fuel use_crc st w = Some r ->
    receive_loop (fuel + extra) use_crc st w = Some r.
Proof.
  induction fuel as [|fuel IH]; intros extra st w r H.
  - discriminate H.
  - cbn [Nat.add receive_loop] in *; unfold bind in *.
    destruct (receive_iteration use_crc st w) as [[[st'|st'|b] w']|];
      try exact H.
    apply IH, H.
Qed.

(** On a line that stays silent the loop goes on for ever. *)
Lemma receive_loop_silent_line (fuel : nat) use_crc :
  forall st w, rx w = [] -> receive_loop fuel use_crc st w = None.
Proof.
  induction fuel as [|fuel IH]; intros st w Hrx.
  - reflexivity.
  - cbn [receive_loop]; unfold bind, receive_iteration, bind.
    rewrite ser_read_one; unfold event; rewrite Hrx.
    cbn [nth read_result truthy negb]; cbv beta iota.
    unfold nak_continue, bind, ser_write, ret; cbv beta iota.
    apply IH; cbn [rx after_read]; rewrite Hrx; reflexivity.
Qed.

(** C6, on the code.  The transfer of two blocks, followed by EOT, is
    received and saved when the packets arrive back to back.  When the
    sender lets a second pass between the two packets, the read after
    block 1 times out and the receiver is back at the head of its loop,
    where the next two bytes are read as block number and complement: these
    are the SOH and the block number of the packet of block 2, so the
    receiver answers the valid packet with NAK and has lost the frame
    boundary; on this line it never leaves the loop, whatever the number of
    iterations it is given. *)
Theorem lead_byte_timeout_loses_frame_sync :
  receive_file 2 CRC (receiver_on two_block_transfer)
  = Some (true,
          mkWorld [] (C ++ ACK ++ ACK ++ ACK) 0
                  (Some (repeat 0x41 128 ++ repeat 0x42 128)) Writable)
  /\ (exists w',
         receive_iterations 2 true ([], 1)
           (receiver_on (tl paused_transfer))
         = Some (Continue (repeat 0x41 128, 2), w')
         /\ tx w' = ACK ++ NAK
         /\ rx w' = map Some (skipn 2 (build_packet true 2 (repeat 0x42 128)))
                    ++ [Some 0x04])
  /\ (forall fuel, receive_file fuel CRC (receiver_on paused_transfer) = None).
Proof.
  split; [vm_compute; reflexivity|]; split.
  - eexists; split; [vm_compute; reflexivity|]; split; reflexivity.
  - assert (Hloop : forall fuel st' w',
               receive_iterations 68 true ([], 1)
                 (mkWorld (tl paused_transfer) C 0 None Writable)
               = Some (Continue st', w') -> rx w' = [] ->
               receive_loop fuel true ([], 1)
                 (mkWorld (tl paused_transfer) C 0 None Writable) = None).
    { intros fuel st' w' Hrun Hrx.
      destruct (receive_loop fuel true ([], 1) _) as [r|] eqn:E;
        [|reflexivity].
      apply (receive_loop_more_fuel fuel true 68) in E.
      rewrite Nat.add_comm, receive_loop_after, Hrun in E.
      rewrite receive_loop_silent_line in E by exact Hrx; discriminate E. }
    intros fuel.
    change (receive_file fuel CRC (receiver_on paused_transfer))
      with (receive_transfer fuel true ([], 1)
              (mkWorld (tl paused_transfer) C 0 None Writable)).
    unfold receive_transfer, bind.
    erewrite Hloop; [reflexivity | vm_compute; reflexivity | reflexivity].
Qed.

(** ** Sessions on concrete lines *)

(** A clean transfer in CRC mode: the sender of 200 bytes of 0x55 gets 'C',
    then an ACK for each of its two packets and for EOT ... *)
Example clean_crc_send :
  send_file (Some (repeat 0x55 200)) CRC
            (mkWorld [Some 0x43; Some 0x06; Some 0x06; Some 0x06] [] 0 None Writable)
  = Some (true,
          mkWorld []
                  (build_packet true 1 (repeat 0x55 128)
                   ++ build_packet true 2 (repeat 0x55 72 ++ repeat 0x1a 56)
                   ++ EOT)
                  0 None Writable).
Proof. vm_compute; reflexivity. Qed.

(** ... and the receiver of what that sender wrote saves the 200 bytes. *)
Example clean_crc_receive :
  receive_file 2 CRC
    (receiver_on (map Some (build_packet true 1 (repeat 0x55 128)
                            ++ build_packet true 2
                                 (repeat 0x55 72 ++ repeat 0x1a 56)
                            ++ EOT)))
  = Some (true,
          mkWorld [] (C ++ ACK ++ ACK ++ ACK) 0 (Some (repeat 0x55 200)) Writable).
Proof. vm_compute; reflexivity. Qed.

(** A receiver that answers every packet with NAK: after ten attempts the
    sender writes CAN CAN and returns [False]. *)
Example retry_exhaustion :
  send_file (Some (repeat 0x00 128)) CRC
            (mkWorld (Some 0x43 :: repeat (Some 0x15) 10) [] 0 None Writable)
  = Some (false,
          mkWorld []
                  (concat (repeat (build_packet true 1 (repeat 0x00 128)) 10)
                   ++ CAN ++ CAN)
                  0 None Writable).
Proof. vm_compute; reflexivity. Qed.

(** A file that ends with the padding byte loses it: the ambiguity of the
    wire format. *)
Example trailing_padding_byte_is_lost :
  remove_padding (length (pad_file_content [0x48; 0x1a]))
                 (pad_file_content [0x48; 0x1a]) (receiver_on [])
  = Some ([0x48], receiver_on []).
Proof. vm_compute; reflexivity. Qed.

(** * Further properties *)

(** ** The codecs and the packet *)

Lemma calculate_checksum_range (data : bytes) : u8 (calculate_checksum data).
Proof.
  unfold u8, calculate_checksum; rewrite land_0xFF.
  pose proof (Z.mod_pos_bound (py_sum data) 256); lia.
Qed.

Lemma land_0xFF_range (x : Z) : u8 (Z.land x 0xFF).
Proof.
  unfold u8; rewrite land_0xFF; pose proof (Z.mod_pos_bound x 256); lia.
Qed.

(** X1.  The packet of a block is made of bytes and has the length of the
    wire format: whatever the block number, when the block holds values
    that fit in a byte so does the whole packet, which is 3 bytes of header,
    the block, and 2 trailer bytes with the CRC or 1 with the checksum. *)
Theorem build_packet_is_bytes
        (use_crc : bool) (block_number : Z) (block : bytes) :
  Forall u8 block ->
  Forall u8 (build_packet use_crc block_number block)
  /\ len (build_packet use_crc block_number block)
     = 3 + len block + (if use_crc then 2 else 1).
Proof.
  intros Hb; rewrite build_packet_layout; split.
  - unfold SOH; repeat (apply Forall_app; split);
      try exact Hb; destruct use_crc;
      repeat constructor; try apply land_0xFF_range;
      try apply calculate_checksum_range; unfold u8; try lia.
    all: pose proof (land_0xFF_range block_number) as R; unfold u8 in R; lia.
  - unfold len, SOH; rewrite !length_app; destruct use_crc; simpl length; lia.
Qed.

Lemma build_packet_is_bytes_witness :
  Forall u8 (build_packet true 300 [0x00; 0xFF])
  /\ len (build_packet true 300 [0x00; 0xFF]) = 3 + len [0x00; 0xFF] + 2.
Proof.
  apply (build_packet_is_bytes true 300 [0x00; 0xFF]).
  repeat constructor; unfold u8; lia.
Defined.

(** Eight shifts of a register whose high byte is clear only move it. *)
Lemma crc_shifts_low_byte (x : Z) :
  0 <= x < 256 -> repeat_times 8 crc_shift x = x * 256.
Proof.
  intros Hx.
  assert (H : forallb (fun n => repeat_times 8 crc_shift (Z.of_nat n)
                                =? Z.of_nat n * 256) (seq 0 256) = true)
    by (vm_compute; reflexivity).
  rewrite forallb_forall in H.
  specialize (H (Z.to_nat x)); rewrite Z2Nat.id in H by lia.
  apply Z.eqb_eq, H, in_seq; lia.
Qed.

Lemma lxor_high_byte (c : Z) :
  0 <= c < 65536 ->
  Z.lxor c (Z.shiftl (Z.land (Z.shiftr c 8) 0xFF) 8) = Z.land c 0xFF.
Proof.
  intros Hc; apply Z.bits_inj'; intros i Hi.
  change 0xFF with (Z.ones 8).
  rewrite Z.lxor_spec, Z.land_spec, Z.shiftl_spec by lia.
  destruct (Z.lt_ge_cases i 8) as [L|L].
  - rewrite (Z.testbit_neg_r _ (i - 8)) by lia.
    rewrite Z.ones_spec_low by lia.
    now rewrite xorb_false_r, andb_true_r.
  - rewrite Z.land_spec, Z.shiftr_spec by lia.
    replace (i - 8 + 8) with i by lia.
    rewrite (Z.ones_spec_high 8 i) by lia; rewrite andb_false_r.
    destruct (Z.lt_ge_cases i 16) as [L16|L16].
    + rewrite Z.ones_spec_low by lia.
      rewrite andb_true_r; apply xorb_nilpotent.
    + rewrite Z.ones_spec_high by lia; rewrite andb_false_r, xorb_false_r.
      rewrite <- (Z.mod_small c (2 ^ 16)) by (change (2 ^ 16) with 65536; lia).
      apply Z.mod_pow2_bits_high; lia.
Qed.

Lemma crc_residue (c : Z) :
  0 <= c < 65536 ->
  crc_update (crc_update c (Z.land (Z.shiftr c 8) 0xFF)) (Z.land c 0xFF) = 0.
Proof.
  intros Hc.
  pose proof (land_0xFF_range c) as Hlo; unfold u8 in Hlo.
  assert (E1 : crc_update c (Z.land (Z.shiftr c 8) 0xFF) = Z.land c 0xFF * 256).
  { unfold crc_update; cbv zeta.
    rewrite lxor_high_byte, crc_shifts_low_byte, land_0xFFFF by lia.
    unfold reg16; apply Z.mod_small; change (2 ^ 16) with 65536; lia. }
  rewrite E1; unfold crc_update; cbv zeta.
  rewrite Z.shiftl_mul_pow2 by lia; change (2 ^ 8) with 256.
  rewrite Z.lxor_nilpotent; vm_compute; reflexivity.
Qed.

(** X2.  The CRC of data followed by its own CRC, high byte first as the
    sender transmits it, is zero: the residue by which a frame can be
    checked in one pass. *)
Theorem crc_of_data_with_its_crc_is_zero (data : bytes) :
  calculate_crc
    (data ++ [Z.land (Z.shiftr (calculate_crc data) 8) 0xFF;
              Z.land (calculate_crc data) 0xFF]) = 0.
Proof.
  change (data ++ [?a; ?b]) with (data ++ [a] ++ [b]).
  rewrite app_assoc, !calculate_crc_snoc.
  apply crc_residue, calculate_crc_range.
Qed.

Lemma calculate_crc_app (a b : bytes) :
  calculate_crc (a ++ b) = fold_left crc_update b (calculate_crc a).
Proof. unfold calculate_crc; apply fold_left_app. Qed.

Lemma calculate_crc_zeros (n : nat) : calculate_crc (repeat 0 n) = 0.
Proof.
  induction n as [|n IH]; [reflexivity|].
  rewrite repeat_snoc, calculate_crc_snoc, IH; reflexivity.
Qed.

(** X3.  Leading zero bytes do not change the CRC (the register starts at 0
    and a zero byte leaves a zero register at zero), so the CRC does not see
    how many zero bytes precede the data. *)
Theorem crc_ignores_leading_zeros (n : nat) (data : bytes) :
  calculate_crc (repeat 0x00 n ++ data) = calculate_crc data.
Proof. rewrite calculate_crc_app, calculate_crc_zeros; reflexivity. Qed.

Lemma fold_right_add_app (a b : bytes) :
  fold_right Z.add 0 (a ++ b) = fold_right Z.add 0 a + fold_right Z.add 0 b.
Proof.
  induction a as [|x a IH]; simpl; [reflexivity | rewrite IH; lia].
Qed.

(** X4.  The checksum of a concatenation is the sum of the checksums modulo
    256, so it does not depend on the order of the parts: a payload whose
    parts are swapped has the same checksum. *)
Theorem checksum_of_concatenation (a b : bytes) :
  calculate_checksum (a ++ b)
  = (calculate_checksum a + calculate_checksum b) mod 256
  /\ calculate_checksum (a ++ b) = calculate_checksum (b ++ a).
Proof.
  unfold calculate_checksum; rewrite !land_0xFF, !py_sum_arith.
  rewrite !fold_right_add_app; split.
  - now rewrite <- Z.add_mod by lia.
  - f_equal; lia.
Qed.

(** ** Padding and blocks *)

Lemma len_app {A : Type} (a b : list A) : len (a ++ b) = len a + len b.
Proof. unfold len; rewrite length_app; lia. Qed.

Lemma len_repeat {A : Type} (x : A) (n : nat) : len (repeat x n) = Z.of_nat n.
Proof. unfold len; now rewrite repeat_length. Qed.

Lemma len_nonneg {A : Type} (l : list A) : 0 <= len l.
Proof. unfold len; lia. Qed.

Lemma pad_file_content_len (F : bytes) :
  len (pad_file_content F) mod 128 = 0
  /\ len F <= len (pad_file_content F) < len F + 128.
Proof.
  rewrite pad_file_content_cases, len_app, len_repeat.
  pose proof (Z.mod_pos_bound (len F) 128 ltac:(lia)) as R.
  pose proof (Z.div_mod (len F) 128 ltac:(lia)) as D.
  destruct (Z.eqb_spec (len F mod 128) 0) as [E|E].
  - rewrite Z.add_0_r; split; [exact E | lia].
  - rewrite Z2Nat.id by lia; split; [|lia].
    replace (len F + (128 - len F mod 128))
      with ((len F / 128 + 1) * 128) by lia.
    apply Z.mod_mul; lia.
Qed.

Lemma padded_content_fills_blocks_aux (F : bytes) :
  exists k : nat, pad_file_content F = F ++ repeat 0x1a k.
Proof. eexists; apply pad_file_content_cases. Qed.

(** X5.  The padded file content is the file followed by padding bytes
    only, fewer than 128 of them, and its length is a multiple of 128. *)
Theorem padded_content_fills_blocks (F : bytes) :
  exists k : nat,
    pad_file_content F = F ++ repeat 0x1a k
    /\ (k < 128)%nat
    /\ len (pad_file_content F) mod BLOCK_SIZE = 0.
Proof.
  destruct (pad_file_content_len F) as [M [L U]].
  exists (if len F mod 128 =? 0 then 0%nat
          else Z.to_nat (128 - len F mod 128)).
  split; [apply pad_file_content_cases|]; split; [|exact M].
  pose proof (Z.mod_pos_bound (len F) 128 ltac:(lia)) as R.
  destruct (Z.eqb_spec (len F mod 128) 0); lia.
Qed.

Lemma split_blocks_full (l : bytes) :
  len l mod 128 = 0 ->
  Forall (fun block => len block = BLOCK_SIZE) (split_blocks l)
  /\ Z.of_nat (length (split_blocks l)) * BLOCK_SIZE = len l.
Proof.
  intros M; rewrite split_blocks_by_index.
  pose proof (len_nonneg l) as P.
  pose proof (Z.div_mod (len l) 128 ltac:(lia)) as D; rewrite M in D.
  assert (Hq : (len l + 127) / 128 = len l / 128).
  { symmetry; apply Z.div_unique with (r := 127); lia. }
  rewrite Hq; split.
  - apply Forall_forall; intros block Hin.
    apply in_map_iff in Hin; destruct Hin as (k & <- & Hk).
    apply in_seq in Hk.
    unfold len, BLOCK_SIZE in *; rewrite length_firstn, length_skipn; lia.
  - rewrite length_map, length_seq, Z2Nat.id; unfold BLOCK_SIZE; lia.
Qed.

(** X6.  The blocks of the padded content are whole: put one after the
    other they are the padded content, each of them has exactly 128 bytes,
    and there are as many as the padded length divided by 128. *)
Theorem blocks_of_padded_content (F : bytes) :
  let blocks := split_blocks (pad_file_content F) in
  concat blocks = pad_file_content F
  /\ Forall (fun block => len block = BLOCK_SIZE) blocks
  /\ Z.of_nat (length blocks) * BLOCK_SIZE = len (pad_file_content F).
Proof.
  intros blocks; split; [apply split_blocks_concat|].
  apply split_blocks_full, pad_file_content_len.
Qed.

(** Every data is clean data followed by padding bytes. *)
Lemma trailing_padding_split (data : bytes) :
  exists d (k : nat), data = d ++ repeat 0x1a k /\ no_trailing_padding d.
Proof.
  induction data as [|x data IH] using rev_ind.
  - exists [], 0%nat; split; [reflexivity|].
    intros d' E; destruct d'; discriminate E.
  - destruct (Z.eq_dec x 0x1a) as [->|N].
    + destruct IH as (d & k & -> & Hd).
      exists d, (S k); split; [|exact Hd].
      now rewrite repeat_snoc, app_assoc.
    + exists (data ++ [x]), 0%nat; split; [now rewrite app_nil_r|].
      intros d' E; apply app_inj_tail in E; destruct E as [_ E].
      contradiction.
Qed.

Lemma remove_padding_result (d : bytes) (k : nat) (w : World) :
  no_trailing_padding d ->
  remove_padding (length (d ++ repeat 0x1a k)) (d ++ repeat 0x1a k) w
  = Some (d, w).
Proof.
  intros Hd; rewrite length_app, repeat_length, Nat.add_comm.
  rewrite remove_padding_trailing, remove_padding_clean by exact Hd.
  reflexivity.
Qed.

(** X7.  The loop that removes the padding always ends, without touching
    the world; it removes padding bytes only, from the end, and what it
    leaves does not end with a padding byte. *)
Theorem remove_padding_strips_the_tail (received_data : bytes) (w : World) :
  exists d (k : nat),
    remove_padding (length received_data) received_data w = Some (d, w)
    /\ received_data = d ++ repeat 0x1a k
    /\ no_trailing_padding d.
Proof.
  destruct (trailing_padding_split received_data) as (d & k & E & Hd).
  exists d, k; split; [|split; assumption].
  rewrite E; apply remove_padding_result, Hd.
Qed.

(** X8.  Trailing 0x1A bytes of a file do not survive the padding round
    trip: a file that is [d] followed by [k] bytes 0x1A, where [d] does not
    end with 0x1A, comes back from padding and padding removal as [d]. *)
Theorem padding_round_trip_drops_trailing_padding
        (d : bytes) (k : nat) (w : World) :
  no_trailing_padding d ->
  remove_padding (length (pad_file_content (d ++ repeat 0x1a k)))
                 (pad_file_content (d ++ repeat 0x1a k)) w
  = Some (d, w).
Proof.
  intros Hd.
  destruct (padded_content_fills_blocks_aux (d ++ repeat 0x1a k)) as (j & E).
  rewrite E, <- app_assoc, <- repeat_app.
  apply remove_padding_result, Hd.
Qed.

Lemma padding_round_trip_drops_trailing_padding_witness :
  remove_padding
    (length (pad_file_content ([0x48; 0x69] ++ repeat 0x1a 3)))
    (pad_file_content ([0x48; 0x69] ++ repeat 0x1a 3)) (receiver_on [])
  = Some ([0x48; 0x69], receiver_on []).
Proof.
  apply (padding_round_trip_drops_trailing_padding [0x48; 0x69] 3).
  intros d' E; apply (f_equal (fun l => last l 0)) in E.
  unfold PADDING in E; rewrite last_last in E; discriminate E.
Defined.

(** ** The sender, from start to end *)

Lemma wait_initiate_total (fuel : nat) :
  forall start_time w,
    RECV_TIMEOUT - (clock w - start_time) <= Z.of_nat fuel ->
    exists r w', wait_initiate fuel start_time w = Some (r, w')
                 /\ tx w' = tx w.
Proof.
  induction fuel as [|fuel IH]; intros start_time w Hc;
    rewrite wait_initiate_unfold; unfold bind at 1, time_time;
    destruct (Z.ltb_spec (clock w - start_time) RECV_TIMEOUT) as [L|L];
    try (exists None, w; split; reflexivity); [lia|].
  unfold bind at 1; rewrite ser_read_one.
  destruct (event (rx w) 0) as [b|] eqn:E0; cbn [read_result truthy].
  - eexists _, _; split; reflexivity.
  - destruct (IH start_time (after_read w)) as (r & w' & E & T).
    + unfold after_read; rewrite E0; cbn [clock]; unfold PORT_TIMEOUT; lia.
    + exists r, w'; split; [exact E | exact T].
Qed.

Lemma after_handshake_total use_crc blocks w :
  exists r w' more,
    after_handshake use_crc blocks w = Some (r, w') /\ tx w' = tx w ++ more.
Proof.
  destruct blocks as [|block blocks].
  - destruct (after_handshake_no_block use_crc w) as (r & w' & n & E & _ & T).
    exists r, w', (repeat 0x04 n); split; assumption.
  - destruct (after_handshake_first_packet use_crc block blocks w)
      as (r & w' & more & E & T).
    eexists r, w', _; split; [exact E | exact T].
Qed.

(** X9.  [send_file] always returns, whatever arrives on the line: every
    loop of the sender is bounded (ten seconds of handshake wait, ten
    attempts per block, ten EOTs), and what it has written is only added
    to. *)
Theorem send_file_terminates
        (file : option bytes) (checksum_type : ChecksumType) (w : World) :
  exists r w' more,
    send_file file checksum_type w = Some (r, w') /\ tx w' = tx w ++ more.
Proof.
  destruct file as [F|];
    [|exists false, w, []; split; [reflexivity | now rewrite app_nil_r]].
  unfold send_file; cbv zeta.
  unfold bind at 1, time_time; unfold bind at 1.
  destruct (wait_initiate_total (Z.to_nat RECV_TIMEOUT) (clock w) w)
    as (ic & w1 & E & T).
  { change (Z.of_nat (Z.to_nat RECV_TIMEOUT)) with 10; unfold RECV_TIMEOUT; lia. }
  rewrite E; destruct ic as [ic|];
    [|exists false, w1, []; split; [reflexivity | now rewrite T, app_nil_r]].
  destruct (negb (truthy ic));
    [exists false, w1, []; split; [reflexivity | now rewrite T, app_nil_r]|].
  match goal with
  | |- context [after_handshake ?u ?b w1] =>
    destruct (after_handshake_total u b w1) as (r & w' & more & E' & T')
  end.
  exists r, w', more; split; [exact E' | now rewrite T', T].
Qed.

Lemma rx_after_read_wrote (data : bytes) (w : World) :
  rx (after_read (wrote data w)) = skipn 1 (rx w).
Proof. cbn [rx after_read wrote]; destruct (rx w); reflexivity. Qed.

Lemma skipn_1_tl {A : Type} (l : list A) : tl l = skipn 1 l.
Proof. destruct l; reflexivity. Qed.

Lemma send_eot_attempt fuel retries w :
  retries < RETRY_LIMIT ->
  send_eot_loop (S fuel) retries w =
  if is_byte 0x06 (event (rx w) 0)
  then Some (true, after_read (wrote EOT w))
  else send_eot_loop fuel (retries + 1)
         (mkWorld (tl (rx w)) (tx w ++ EOT)
                  (clock (after_read (wrote EOT w)) + 1)
                  (disk w) (disk_writable w)).
Proof.
  intros H; rewrite send_eot_loop_unfold.
  destruct (Z.ltb_spec retries RETRY_LIMIT); [|lia].
  unfold bind at 1, ser_write; unfold bind at 1; rewrite ser_read_one.
  unfold ACK; rewrite bytes_eqb_read_result.
  change (rx (mkWorld (rx w) _ _ _ _)) with (rx w).
  destruct (is_byte 6 (event (rx w) 0)); reflexivity.
Qed.

(** A run of the EOT loop: [n] EOTs, the responses before the last one not
    being ACK, and [True] exactly when the last one is. *)
Lemma send_eot_loop_attempts (fuel : nat) :
  forall retries w,
    0 <= retries -> retries + Z.of_nat (S fuel) = RETRY_LIMIT ->
    exists (r : bool) (w' : World) (n : nat),
      send_eot_loop (S fuel) retries w = Some (r, w')
      /\ (1 <= n <= S fuel)%nat
      /\ tx w' = tx w ++ repeat 0x04 n
      /\ rx w' = skipn n (rx w)
      /\ (forall i, (i < n - 1)%nat -> is_byte 0x06 (event (rx w) i) = false)
      /\ r = is_byte 0x06 (event (rx w) (n - 1))
      /\ (r = false -> n = S fuel).
Proof.
  induction fuel as [|fuel IH]; intros retries w H0 HL;
    rewrite send_eot_attempt by (unfold RETRY_LIMIT in *; lia);
    destruct (is_byte 6 (event (rx w) 0)) eqn:A.
  1, 3: exists true, (after_read (wrote EOT w)), 1%nat;
    (split; [reflexivity|]); (split; [lia|]); (split; [reflexivity|]);
    (split; [apply rx_after_read_wrote|]);
    (split; [intros i Hi; lia|]); split; [symmetry; exact A | discriminate].
  - rewrite send_eot_loop_unfold.
    destruct (Z.ltb_spec (retries + 1) RETRY_LIMIT); [lia|].
    eexists false, _, 1%nat; split; [reflexivity|].
    split; [lia|]. split; [reflexivity|].
    split; [apply skipn_1_tl|].
    split; [intros i Hi; lia|]. split; [symmetry; exact A | reflexivity].
  - match goal with
    | |- context [send_eot_loop _ _ ?w1] =>
      destruct (IH (retries + 1) w1)
        as (r & w' & n & E & Hn & T & R & Hpre & Hr & Hf); [lia | lia |]
    end.
    cbn [rx tx] in *.
    exists r, w', (S n); split; [exact E|].
    split; [lia|].
    split; [rewrite T, <- app_assoc; reflexivity|].
    split; [rewrite R; apply skipn_tl|].
    replace (S n - 1)%nat with (S (n - 1)) by lia.
    split; [|split].
    + intros [|i] Hi; [exact A|].
      rewrite <- event_tl; apply Hpre; lia.
    + rewrite <- event_tl; exact Hr.
    + intros Hfalse; rewrite (Hf Hfalse); reflexivity.
Qed.

(** X10.  The end of a transmission: the sender writes EOT and reads one
    response, again and again until a response is ACK, at most ten times.
    It returns [True] exactly when the response to its last EOT is ACK; when
    it returns [False] it has written ten EOTs and none of the ten responses
    was ACK. *)
Theorem eot_is_repeated_until_acknowledged (w : World) :
  exists (r : bool) (w' : World) (n : nat),
    send_eot_loop (Z.to_nat RETRY_LIMIT) 0 w = Some (r, w')
    /\ (1 <= n <= 10)%nat
    /\ tx w' = tx w ++ repeat 0x04 n
    /\ rx w' = skipn n (rx w)
    /\ (forall i, (i < n - 1)%nat -> is_byte 0x06 (event (rx w) i) = false)
    /\ r = is_byte 0x06 (event (rx w) (n - 1))
    /\ (r = false -> n = 10%nat).
Proof.
  change (Z.to_nat RETRY_LIMIT) with 10%nat.
  apply (send_eot_loop_attempts 9 0 w); [lia | reflexivity].
Qed.

(** When every packet is acknowledged at once, the loop over the blocks
    writes the packets one after the other. *)
Lemma send_blocks_all_acked use_crc (blocks : list bytes) :
  forall block_number w rest,
    rx w = repeat (Some 0x06) (length blocks) ++ rest ->
    exists last_number,
      send_blocks use_crc blocks block_number w
      = Some (Break last_number,
              mkWorld rest (tx w ++ packets_from use_crc block_number blocks)
                      (clock w) (disk w) (disk_writable w)).
Proof.
  induction blocks as [|block blocks IH]; intros block_number w rest Hrx.
  - exists block_number; cbn [send_blocks packets_from]; unfold ret.
    rewrite app_nil_r; cbn [length repeat app] in Hrx; rewrite <- Hrx.
    destruct w; reflexivity.
  - rewrite send_blocks_cons; change (Z.to_nat RETRY_LIMIT) with 10%nat.
    rewrite send_attempt by (unfold RETRY_LIMIT; lia); cbv zeta.
    cbn [length repeat app] in Hrx.
    unfold event at 1; rewrite Hrx; cbn [nth is_byte].
    change (6 =? 6) with true; cbv iota.
    change (0 >=? RETRY_LIMIT) with false; cbv iota.
    set (w1 := after_read (wrote (build_packet use_crc block_number block) w)).
    destruct (IH ((block_number + 1) mod 256) w1 rest) as (last_number & E).
    + unfold w1; cbn [rx after_read wrote]; rewrite Hrx; reflexivity.
    + exists last_number; rewrite E.
      unfold w1; cbn [rx tx clock disk disk_writable after_read wrote
                         packets_from].
      unfold event; rewrite Hrx; cbn [nth]; rewrite <- app_assoc.
      reflexivity.
Qed.

(** The sender on a line where every answer is the one it waits for. *)
Lemma send_file_all_acked
        (F : bytes) (checksum_type : ChecksumType) (hs : Z)
        (rest : list (option Z)) (w : World) :
  let blocks := split_blocks (pad_file_content F) in
  let use_crc := (hs =? 0x43) && ChecksumType_eqb checksum_type CRC in
  rx w = Some hs :: repeat (Some 0x06) (length blocks) ++ Some 0x06 :: rest ->
  send_file (Some F) checksum_type w
  = Some (true,
          mkWorld rest (tx w ++ packets_from use_crc 1 blocks ++ EOT)
                  (clock w) (disk w) (disk_writable w)).
Proof.
  intros blocks use_crc Hrx.
  rewrite (send_file_handshake_byte F checksum_type w 0 hs
             (repeat (Some 0x06) (length blocks) ++ Some 0x06 :: rest))
    by (try lia; exact Hrx).
  fold blocks; fold use_crc; unfold after_handshake, bind.
  match goal with
  | |- context [send_blocks use_crc blocks 1 ?w1] =>
    destruct (send_blocks_all_acked use_crc blocks 1 w1 (Some 0x06 :: rest))
      as (last_number & E); [reflexivity | rewrite E]
  end.
  change (Z.to_nat RETRY_LIMIT) with 10%nat.
  rewrite send_eot_attempt by (unfold RETRY_LIMIT; lia).
  cbn [rx tx clock disk disk_writable event nth is_byte].
  change (6 =? 6) with true; cbv iota.
  unfold after_read, wrote, event;
    cbn [rx tx clock disk disk_writable nth tl].
  rewrite Z.add_0_r, <- app_assoc; reflexivity.
Qed.

(** X11.  The sender on a line where the answers come at once: after a
    handshake byte and an ACK for every packet and for EOT, [send_file]
    returns [True] and has written the packets of the blocks of the padded
    file, numbered from 1 and wrapping modulo 256, followed by one EOT, in
    CRC mode when the handshake byte is 'C' and the CRC was asked for and in
    checksum mode otherwise. *)
Theorem send_file_acknowledged
        (F : bytes) (checksum_type : ChecksumType) (hs : Z)
        (rest : list (option Z)) (w : World) :
  let blocks := split_blocks (pad_file_content F) in
  let use_crc := (hs =? 0x43) && ChecksumType_eqb checksum_type CRC in
  rx w = Some hs :: repeat (Some 0x06) (length blocks) ++ Some 0x06 :: rest ->
  send_file (Some F) checksum_type w
  = Some (true,
          mkWorld rest (tx w ++ packets_from use_crc 1 blocks ++ EOT)
                  (clock w) (disk w) (disk_writable w)).
Proof. apply send_file_all_acked. Qed.

Lemma send_file_acknowledged_witness :
  send_file (Some [0x48; 0x69]) CRC
            (mkWorld [Some 0x43; Some 0x06; Some 0x06] [] 0 None Writable)
  = Some (true,
          mkWorld [] ([] ++ packets_from ((0x43 =? 0x43) && ChecksumType_eqb CRC CRC) 1
                                  (split_blocks (pad_file_content [0x48; 0x69]))
                         ++ EOT)
                  0 None Writable).
Proof.
  apply (send_file_acknowledged [0x48; 0x69] CRC 0x43 []
           (mkWorld [Some 0x43; Some 0x06; Some 0x06] [] 0 None Writable)).
  reflexivity.
Defined.

(** ** The handshake of the receiver *)

Lemma receive_handshake_loop_unfold fuel use_crc retries :
  receive_handshake_loop fuel use_crc retries =
  if retries <? RETRY_LIMIT then
    match fuel with
    | O => out_of_fuel
    | S fuel' =>
      (if use_crc then ser_write C else ser_write NAK) ;;
      data <- ser_read 1 ;;
      if bytes_eqb data SOH then ret (Break retries)
      else if bytes_eqb data CAN then ret (Return false)
      else
        time_sleep 1 ;;
        receive_handshake_loop fuel' use_crc (retries + 1)
    end
  else ret (Break retries).
Proof. destruct fuel; reflexivity. Qed.

(** What one attempt of the handshake does with the event it reads. *)
Lemma receive_handshake_attempt fuel use_crc retries w :
  retries < RETRY_LIMIT ->
  let w1 := after_read (wrote (handshake_byte use_crc) w) in
  receive_handshake_loop (S fuel) use_crc retries w =
  if is_byte 0x01 (event (rx w) 0) then Some (Break retries, w1)
  else if is_byte 0x18 (event (rx w) 0) then Some (Return false, w1)
  else receive_handshake_loop fuel use_crc (retries + 1)
         (mkWorld (rx w1) (tx w1) (clock w1 + 1) (disk w1) (disk_writable w1)).
Proof.
  intros H w1; rewrite receive_handshake_loop_unfold.
  destruct (Z.ltb_spec retries RETRY_LIMIT); [|lia].
  assert (Ew : (if use_crc then ser_write C else ser_write NAK) w
               = Some (tt, wrote (handshake_byte use_crc) w))
    by (destruct use_crc; reflexivity).
  unfold bind at 1; rewrite Ew.
  unfold bind at 1; rewrite ser_read_one.
  change (rx (wrote (handshake_byte use_crc) w)) with (rx w); fold w1.
  unfold SOH, CAN; rewrite !bytes_eqb_read_result.
  destruct (is_byte 1 (event (rx w) 0)); [reflexivity|].
  destruct (is_byte 24 (event (rx w) 0)); reflexivity.
Qed.

(** Attempts that are answered neither by SOH nor by CAN: each writes the
    handshake byte again. *)
Lemma receive_handshake_failed_attempts use_crc (k : nat) :
  forall fuel retries w,
    0 <= retries -> retries + Z.of_nat fuel = RETRY_LIMIT ->
    (k <= fuel)%nat ->
    (forall i, (i < k)%nat ->
               is_byte 0x01 (event (rx w) i) = false
               /\ is_byte 0x18 (event (rx w) i) = false) ->
    exists wk,
      receive_handshake_loop fuel use_crc retries w
      = receive_handshake_loop (fuel - k) use_crc (retries + Z.of_nat k) wk
      /\ tx wk = tx w ++ concat (repeat (handshake_byte use_crc) k)
      /\ rx wk = skipn k (rx w)
      /\ disk wk = disk w
      /\ disk_writable wk = disk_writable w.
Proof.
  induction k as [|k IH]; intros fuel retries w H0 HL Hk Hev.
  - exists w; rewrite Nat.sub_0_r, Z.add_0_r; cbn [repeat concat].
    rewrite app_nil_r; repeat split.
  - destruct fuel as [|fuel]; [lia|].
    rewrite receive_handshake_attempt by (unfold RETRY_LIMIT in *; lia).
    cbv zeta; destruct (Hev 0%nat ltac:(lia)) as [-> ->].
    match goal with
    | |- context [receive_handshake_loop fuel use_crc (retries + 1) ?w1] =>
      destruct (IH fuel (retries + 1) w1) as (wk & E & T & R & D & W);
        [lia | lia | lia | |]
    end.
    + intros i Hi; cbn [rx after_read wrote]; rewrite event_tl.
      apply Hev; lia.
    + exists wk; rewrite E; cbn [rx tx disk disk_writable after_read wrote] in *.
      replace (retries + 1 + Z.of_nat k) with (retries + Z.of_nat (S k)) by lia.
      split; [reflexivity|]. split; [|split; [|split]].
      * rewrite T; cbn [repeat concat]; now rewrite <- app_assoc.
      * rewrite R; apply skipn_tl.
      * exact D.
      * exact W.
Qed.

(** When none of the first ten events is SOH or CAN, [receive_file] gives
    up. *)
Lemma receive_file_no_answer fuel checksum_type w :
  (forall i, (i < 10)%nat ->
             is_byte 0x01 (event (rx w) i) = false
             /\ is_byte 0x18 (event (rx w) i) = false) ->
  exists w',
    receive_file fuel checksum_type w = Some (false, w')
    /\ tx w' = tx w ++ concat (repeat (handshake_byte
                                         (ChecksumType_eqb checksum_type CRC)) 10)
    /\ rx w' = skipn 10 (rx w)
    /\ disk w' = disk w.
Proof.
  intros Hev; unfold receive_file; cbv zeta; unfold bind at 1.
  change (Z.to_nat RETRY_LIMIT) with 10%nat.
  destruct (receive_handshake_failed_attempts
              (ChecksumType_eqb checksum_type CRC) 10 10 0 w)
    as (wk & E & T & R & D & _); [lia | reflexivity | lia | exact Hev |].
  rewrite E; exists wk; split; [reflexivity|].
  split; [exact T|]; split; [exact R | exact D].
Qed.

(** When the first event that is SOH or CAN is SOH, after [k] attempts in
    vain, [receive_file] enters the receive loop, SOH consumed. *)
Lemma receive_file_handshake_soh fuel checksum_type w (k : nat) :
  (k < 10)%nat ->
  (forall i, (i < k)%nat ->
             is_byte 0x01 (event (rx w) i) = false
             /\ is_byte 0x18 (event (rx w) i) = false) ->
  is_byte 0x01 (event (rx w) k) = true ->
  let use_crc := ChecksumType_eqb checksum_type CRC in
  exists w1,
    receive_file fuel checksum_type w
    = receive_transfer fuel use_crc ([], 1) w1
    /\ tx w1 = tx w ++ concat (repeat (handshake_byte use_crc) (S k))
    /\ rx w1 = skipn (S k) (rx w)
    /\ disk w1 = disk w
    /\ disk_writable w1 = disk_writable w.
Proof.
  intros Hk Hev Hsoh use_crc; unfold receive_file; cbv zeta; fold use_crc.
  unfold bind at 1; change (Z.to_nat RETRY_LIMIT) with 10%nat.
  destruct (receive_handshake_failed_attempts use_crc k 10 0 w)
    as (wk & E & T & R & D & W); [lia | reflexivity | lia | exact Hev |].
  rewrite E.
  replace (10 - k)%nat with (S (9 - k)) by lia.
  rewrite receive_handshake_attempt by (unfold RETRY_LIMIT; lia); cbv zeta.
  assert (Hk0 : event (rx wk) 0 = event (rx w) k).
  { rewrite R; unfold event; rewrite nth_skipn; f_equal; lia. }
  rewrite Hk0, Hsoh.
  destruct (Z.geb_spec (0 + Z.of_nat k) RETRY_LIMIT) as [G|G];
    [unfold RETRY_LIMIT in G; lia|].
  eexists; split; [reflexivity|].
  cbn [rx tx disk disk_writable after_read wrote].
  split; [|split; [|split]].
  - rewrite T, <- app_assoc; f_equal.
    replace (S k) with (k + 1)%nat by lia.
    rewrite repeat_app, concat_app; cbn [repeat concat].
    now rewrite app_nil_r.
  - rewrite R, skipn_1_tl, skipn_skipn; f_equal.
  - exact D.
  - exact W.
Qed.

(** X12.  The handshake of the receiver fails in two ways.  When none of
    the first ten bytes or timeouts it reads is SOH or CAN, [receive_file]
    has written its handshake byte ('C' for the CRC, NAK for the checksum)
    ten times and returns [False].  When CAN comes before any SOH,
    [receive_file] returns [False] at once.  In both cases the output file
    is not touched. *)
Theorem receive_handshake_fails :
  (forall fuel checksum_type w,
      (forall i, (i < 10)%nat ->
                 is_byte 0x01 (event (rx w) i) = false
                 /\ is_byte 0x18 (event (rx w) i) = false) ->
      exists w',
        receive_file fuel checksum_type w = Some (false, w')
        /\ tx w' = tx w
                   ++ concat (repeat (handshake_byte
                                        (ChecksumType_eqb checksum_type CRC)) 10)
        /\ disk w' = disk w)
  /\ (forall fuel checksum_type w (k : nat),
         (k < 10)%nat ->
         (forall i, (i < k)%nat ->
                    is_byte 0x01 (event (rx w) i) = false
                    /\ is_byte 0x18 (event (rx w) i) = false) ->
         is_byte 0x18 (event (rx w) k) = true ->
         exists w',
           receive_file fuel checksum_type w = Some (false, w')
           /\ tx w' = tx w
                      ++ concat (repeat (handshake_byte
                                           (ChecksumType_eqb checksum_type CRC))
                                        (S k))
           /\ disk w' = disk w).
Proof.
  split.
  - intros fuel checksum_type w Hev.
    destruct (receive_file_no_answer fuel checksum_type w Hev)
      as (w' & E & T & _ & D).
    exists w'; split; [exact E|]; split; [exact T | exact D].
  - intros fuel checksum_type w k Hk Hev Hcan.
    unfold receive_file; cbv zeta; unfold bind at 1.
    change (Z.to_nat RETRY_LIMIT) with 10%nat.
    destruct (receive_handshake_failed_attempts
                (ChecksumType_eqb checksum_type CRC) k 10 0 w)
      as (wk & E & T & R & D & W); [lia | reflexivity | lia | exact Hev |].
    rewrite E.
    replace (10 - k)%nat with (S (9 - k)) by lia.
    rewrite receive_handshake_attempt by (unfold RETRY_LIMIT; lia); cbv zeta.
    assert (Hk0 : event (rx wk) 0 = event (rx w) k).
    { rewrite R; unfold event; rewrite nth_skipn; f_equal; lia. }
    rewrite Hk0, Hcan.
    assert (Hsoh : is_byte 1 (event (rx w) k) = false).
    { destruct (event (rx w) k) as [b|]; [|reflexivity].
      cbn [is_byte] in *; apply Z.eqb_eq in Hcan; subst b; reflexivity. }
    rewrite Hsoh; eexists; split; [reflexivity|].
    cbn [tx disk after_read wrote]; split; [|exact D].
    rewrite T, <- app_assoc; f_equal.
    replace (S k) with (k + 1)%nat by lia.
    rewrite repeat_app, concat_app; cbn [repeat concat].
    now rewrite app_nil_r.
Qed.

Lemma receive_handshake_fails_witness :
  (exists w',
      receive_file 5 CRC (receiver_on [Some 0x04]) = Some (false, w')
      /\ tx w' = [] ++ concat (repeat (handshake_byte (ChecksumType_eqb CRC CRC)) 10)
      /\ disk w' = None)
  /\ (exists w',
         receive_file 5 BASIC (receiver_on [None; Some 0x18]) = Some (false, w')
         /\ tx w' = [] ++ concat (repeat (handshake_byte
                                            (ChecksumType_eqb BASIC CRC)) 2)
         /\ disk w' = None).
Proof.
  split.
  - apply (proj1 receive_handshake_fails 5%nat CRC (receiver_on [Some 0x04])).
    intros i _; unfold event, receiver_on; cbn [rx].
    destruct i as [|[|i]]; split; reflexivity.
  - apply (proj2 receive_handshake_fails 5%nat BASIC
                 (receiver_on [None; Some 0x18]) 1%nat); [lia | | reflexivity].
    intros i Hi; replace i with 0%nat by lia; split; reflexivity.
Defined.

(** X13.  The empty file cannot be transferred.  For the empty file the
    sender writes EOT bytes only; on a line that carries EOT bytes only,
    however many, [receive_file] never sees the SOH it waits for: it gives
    up after ten handshake attempts, returns [False] and writes no file. *)
Theorem empty_file_is_not_received
        (fuel : nat) (checksum_type : ChecksumType) (n : nat) (w : World) :
  rx w = repeat (Some 0x04) n ->
  exists w',
    receive_file fuel checksum_type w = Some (false, w')
    /\ disk w' = disk w.
Proof.
  intros Hrx.
  destruct (receive_file_no_answer fuel checksum_type w) as (w' & E & _ & _ & D).
  - intros i _; unfold event; rewrite Hrx.
    destruct (Nat.lt_ge_cases i n) as [L|G].
    + rewrite nth_repeat_lt by exact L; split; reflexivity.
    + rewrite nth_overflow by (rewrite repeat_length; lia); split; reflexivity.
  - exists w'; split; [exact E | exact D].
Qed.

Lemma empty_file_is_not_received_witness :
  exists w',
    receive_file 3 CRC (receiver_on (repeat (Some 0x04) 10)) = Some (false, w')
    /\ disk w' = disk (receiver_on (repeat (Some 0x04) 10)).
Proof.
  apply (empty_file_is_not_received 3 CRC 10 (receiver_on (repeat (Some 0x04) 10))).
  reflexivity.
Defined.

(** ** The receive loop: what an iteration can do *)

Lemma iteration_shaped_nak st : iteration_shaped st (nak_continue st).
Proof.
  intros w; eexists _, _; split; [reflexivity|].
  left; split; reflexivity.
Qed.

Lemma iteration_shaped_read st (size : nat) k :
  (forall bs, iteration_shaped st (k bs)) ->
  iteration_shaped st (bind (ser_read size) k).
Proof.
  intros Hk w; unfold bind, ser_read.
  destruct (line_read size (rx w)) as [[bs line] timed_out].
  destruct (Hk bs (mkWorld line (tx w)
                           (if timed_out then clock w + PORT_TIMEOUT
                            else clock w) (disk w) (disk_writable w)))
    as (ctl & w' & E & O).
  exists ctl, w'; split; [exact E | exact O].
Qed.

Lemma acknowledged_then_check_eot st st' w :
  (st' = st
   \/ exists d, len d = BLOCK_SIZE
                /\ st' = (fst st ++ d, (snd st + 1) mod 256)) ->
  exists ctl w',
    (ser_write ACK ;; check_eot st')%io w = Some (ctl, w')
    /\ iteration_outcome st (tx w) ctl (tx w').
Proof.
  intros Hst; unfold bind at 1, ser_write; fold (wrote ACK w).
  destruct (check_eot_cases st' (wrote ACK w)) as [[-> _]|[-> _]];
    eexists _, _; (split; [reflexivity|]);
    right; right; exists st'; (split; [exact Hst|]).
  - right; split; [reflexivity|].
    cbn [tx wrote after_read]; now rewrite <- app_assoc.
  - left; split; reflexivity.
Qed.

Lemma iteration_shaped_block_received block_num data_block st :
  len data_block = BLOCK_SIZE ->
  iteration_shaped st (block_received block_num data_block st).
Proof.
  intros Hlen w; unfold block_received; destruct st as [buf E].
  destruct (ord block_num =? E).
  - apply acknowledged_then_check_eot; right.
    exists data_block; split; [exact Hlen | reflexivity].
  - destruct (ord block_num =? (E - 1) mod 256).
    + apply acknowledged_then_check_eot; left; reflexivity.
    + eexists _, _; split; [reflexivity|].
      right; left; split; [reflexivity|].
      cbn [tx]; now rewrite <- app_assoc.
Qed.

Lemma iteration_shaped_receive_iteration use_crc st :
  iteration_shaped st (receive_iteration use_crc st).
Proof.
  unfold receive_iteration.
  apply iteration_shaped_read; intros block_num.
  destruct (negb (truthy block_num)); [apply iteration_shaped_nak|].
  apply iteration_shaped_read; intros block_num_complement.
  destruct (negb (truthy block_num_complement)); [apply iteration_shaped_nak|].
  destruct (negb (block_num_verified _ _)); [apply iteration_shaped_nak|].
  apply iteration_shaped_read; intros data_block.
  destruct (Z.eqb_spec (len data_block) BLOCK_SIZE) as [Hlen|_];
    [|apply iteration_shaped_nak].
  cbn [negb]; destruct use_crc.
  - apply iteration_shaped_read; intros crc_bytes.
    destruct (negb (len crc_bytes =? 2)); [apply iteration_shaped_nak|].
    destruct (negb (_ =? calculate_crc data_block));
      [apply iteration_shaped_nak|].
    apply iteration_shaped_block_received, Hlen.
  - apply iteration_shaped_read; intros checksum.
    destruct (negb (truthy checksum)); [apply iteration_shaped_nak|].
    destruct (negb (_ =? calculate_checksum data_block));
      [apply iteration_shaped_nak|].
    apply iteration_shaped_block_received, Hlen.
Qed.

(** X14.  What one iteration of the receive loop can do.  It always ends,
    in one of these ways: it writes NAK and keeps the received data and the
    expected block as they were; or it writes CAN CAN and makes
    [receive_file] return [False]; or it writes ACK, having either kept the
    state (a duplicate) or appended exactly 128 bytes and advanced the
    expected block by one modulo 256, after which it goes on or, on EOT,
    writes a second ACK and leaves the loop.  So a frame that is answered
    with NAK never changes the state, and data is only ever appended in
    whole blocks. *)
Theorem receive_iteration_outcomes
        (use_crc : bool) (st : RecvState) (w : World) :
  exists ctl w',
    receive_iteration use_crc st w = Some (ctl, w')
    /\ iteration_outcome st (tx w) ctl (tx w').
Proof. apply iteration_shaped_receive_iteration. Qed.

(** What the receive loop has when it ends: whole blocks were added to the
    data, and the expected block was advanced once per block. *)
Lemma receive_loop_invariant (fuel : nat) use_crc :
  forall buf E w ctl w',
    0 <= E < 256 ->
    receive_loop fuel use_crc (buf, E) w = Some (ctl, w') ->
    ctl = Return false
    \/ exists blocks,
        Forall (fun block => len block = BLOCK_SIZE) blocks
        /\ ctl = Break (buf ++ concat blocks,
                        (E + Z.of_nat (length blocks)) mod 256).
Proof.
  induction fuel as [|fuel IH]; intros buf E w ctl w' HE H;
    [discriminate H|].
  cbn [receive_loop] in H; unfold bind in H.
  destruct (iteration_shaped_receive_iteration use_crc (buf, E) w)
    as (c & w1 & E1 & O); rewrite E1 in H.
  assert (Hsame : forall c0,
             c0 = Continue (buf, E) \/ c0 = Break (buf, E) ->
             c = c0 ->
             ctl = Return false
             \/ exists blocks,
                 Forall (fun block => len block = BLOCK_SIZE) blocks
                 /\ ctl = Break (buf ++ concat blocks,
                                 (E + Z.of_nat (length blocks)) mod 256)).
  { intros c0 [->| ->] ->.
    - apply (IH buf E w1 ctl w' HE H).
    - injection H as <- _; right; exists []; split; [constructor|].
      cbn [concat length]; rewrite app_nil_r, Z.add_0_r, Z.mod_small by lia.
      reflexivity. }
  destruct O as [[-> _]|[[-> _]|(st' & [->|(d & Hd & ->)] & Hc)]].
  - apply (Hsame (Continue (buf, E))); [left|]; reflexivity.
  - injection H as <- _; left; reflexivity.
  - destruct Hc as [[-> _]|[-> _]].
    + apply (Hsame (Continue (buf, E))); [left|]; reflexivity.
    + apply (Hsame (Break (buf, E))); [right|]; reflexivity.
  - cbn [fst snd] in Hc.
    assert (HE' : 0 <= (E + 1) mod 256 < 256) by (apply Z.mod_pos_bound; lia).
    assert (Hnum : forall n : nat,
               ((E + 1) mod 256 + Z.of_nat n) mod 256
               = (E + Z.of_nat (S n)) mod 256).
    { intros n; rewrite Zplus_mod_idemp_l; f_equal; lia. }
    destruct Hc as [[-> _]|[-> _]].
    + destruct (IH _ _ w1 ctl w' HE' H) as [->|(blocks & Hb & ->)];
        [left; reflexivity|].
      right; exists (d :: blocks); split; [constructor; assumption|].
      cbn [concat length]; rewrite Hnum, <- app_assoc; reflexivity.
    + injection H as <- _; right; exists [d]; split;
        [constructor; [exact Hd | constructor]|].
      cbn [concat length]; rewrite app_nil_r.
      rewrite <- (Hnum 0%nat), Z.add_0_r, Z.mod_mod by lia; reflexivity.
Qed.

Lemma receive_handshake_loop_returns_false (fuel : nat) use_crc :
  forall retries w b w',
    receive_handshake_loop fuel use_crc retries w = Some (Return b, w') ->
    b = false.
Proof.
  induction fuel as [|fuel IH]; intros retries w b w' H;
    rewrite receive_handshake_loop_unfold in H;
    destruct (retries <? RETRY_LIMIT); try discriminate H.
  unfold bind at 1 in H.
  destruct ((if use_crc then ser_write C else ser_write NAK) w)
    as [[u w1]|]; [|discriminate H].
  unfold bind at 1 in H; rewrite ser_read_one in H.
  destruct (bytes_eqb _ SOH); [discriminate H|].
  destruct (bytes_eqb _ CAN); [injection H as <- _; reflexivity|].
  unfold bind at 1, time_sleep in H; apply IH in H; exact H.
Qed.

(** X15.  What [receive_file] saves.  Whenever [receive_file] returns
    [True], the output file has been written, its content does not end with
    the byte 0x1A, and that content followed by some number of 0x1A bytes is
    a sequence of whole 128-byte blocks (the blocks that were
    acknowledged). *)
Theorem received_file_is_stripped_blocks
        (fuel : nat) (checksum_type : ChecksumType) (w w' : World) :
  receive_file fuel checksum_type w = Some (true, w') ->
  exists d (k : nat) blocks,
    disk w' = Some d
    /\ no_trailing_padding d
    /\ d ++ repeat 0x1a k = concat blocks
    /\ Forall (fun block => len block = BLOCK_SIZE) blocks.
Proof.
  unfold receive_file, bind; intros H.
  destruct (receive_handshake_loop _ _ _ w) as [[h w1]|] eqn:Eh;
    [|discriminate H].
  assert (Ht : receive_transfer fuel (ChecksumType_eqb checksum_type CRC)
                                ([], 1) w1 = Some (true, w')).
  { destruct h as [n|n|b].
    1, 2: destruct (n >=? RETRY_LIMIT); [discriminate H | exact H].
    apply receive_handshake_loop_returns_false in Eh; subst b.
    discriminate H. }
  clear H Eh; unfold receive_transfer, bind in Ht.
  destruct (receive_loop _ _ _ w1) as [[ctl w2]|] eqn:El; [|discriminate Ht].
  apply receive_loop_invariant in El; [|lia].
  destruct El as [->|(blocks & Hb & ->)]; [discriminate Ht|].
  cbn [app] in Ht; unfold save_received, bind in Ht.
  destruct (trailing_padding_split (concat blocks)) as (d & k & E & Hd).
  rewrite E, (remove_padding_result d k w2 Hd) in Ht.
  unfold write_output_file in Ht.
  destruct (disk_writable w2); [|discriminate Ht|discriminate Ht].
  injection Ht as <-.
  exists d, k, blocks; split; [reflexivity|].
  split; [exact Hd|]; split; [symmetry; exact E | exact Hb].
Qed.

Lemma received_file_is_stripped_blocks_witness :
  exists d (k : nat) blocks,
    disk (mkWorld [] (C ++ ACK ++ ACK ++ ACK) 0
                  (Some (repeat 0x41 128 ++ repeat 0x42 128)) Writable) = Some d
    /\ no_trailing_padding d
    /\ d ++ repeat 0x1a k = concat blocks
    /\ Forall (fun block => len block = BLOCK_SIZE) blocks.
Proof.
  apply (received_file_is_stripped_blocks 2 CRC (receiver_on two_block_transfer)).
  vm_compute; reflexivity.
Defined.

(** ** Sender and receiver together *)

Lemma check_eot_on_soh st w line :
  rx w = Some 0x01 :: line ->
  check_eot st w = Some (Continue st, with_rx line w).
Proof.
  intros Hrx; unfold check_eot, bind; rewrite ser_read_one.
  unfold event, after_read, event; rewrite Hrx; reflexivity.
Qed.

Lemma check_eot_on_eot st w line :
  rx w = Some 0x04 :: line ->
  check_eot st w = Some (Break st, wrote ACK (with_rx line w)).
Proof.
  intros Hrx; unfold check_eot, bind; rewrite ser_read_one.
  unfold event, after_read, event; rewrite Hrx; reflexivity.
Qed.

Lemma build_packet_after_soh use_crc block_number block :
  0 <= block_number <= 255 ->
  build_packet use_crc block_number block
  = 0x01 :: [block_number; 255 - block_number] ++ block
         ++ (if use_crc
             then [Z.land (Z.shiftr (calculate_crc block) 8) 0xFF;
                   Z.land (calculate_crc block) 0xFF]
             else [calculate_checksum block]).
Proof.
  intros H; rewrite build_packet_layout, land_0xFF_byte by exact H.
  reflexivity.
Qed.

(** The receive loop, SOH consumed, on the packets of [block :: blocks]
    numbered from the expected block on and followed by EOT: every block is
    appended and acknowledged, and so is EOT. *)
Lemma receive_loop_packets use_crc (blocks : list bytes) :
  forall block block_number buf fuel w rest,
    0 <= block_number <= 255 ->
    Forall (fun b => len b = BLOCK_SIZE) (block :: blocks) ->
    (length blocks < fuel)%nat ->
    Some 0x01 :: rx w
    = map Some (packets_from use_crc block_number (block :: blocks))
      ++ Some 0x04 :: rest ->
    exists last_block,
      receive_loop fuel use_crc (buf, block_number) w
      = Some (Break (buf ++ concat (block :: blocks), last_block),
              mkWorld rest (tx w ++ repeat 0x06 (S (S (length blocks))))
                      (clock w) (disk w) (disk_writable w)).
Proof.
  induction blocks as [|block2 blocks IH];
    intros block block_number buf fuel w rest Hn Hlen Hfuel Hrx;
    (destruct fuel as [|fuel]; [lia|]);
    inversion Hlen as [|? ? Hb Hlen']; subst;
    cbn [packets_from] in Hrx;
    rewrite build_packet_after_soh in Hrx by exact Hn;
    cbn [app map] in Hrx; injection Hrx as Hrx;
    cbn [receive_loop]; unfold bind at 1.
  - (* the last block *)
    rewrite (receive_iteration_valid_frame use_crc (buf, block_number)
               block_number (255 - block_number) block
               (if use_crc
                then [Z.land (Z.shiftr (calculate_crc block) 8) 0xFF;
                      Z.land (calculate_crc block) 0xFF]
                else [calculate_checksum block])
               (Some 0x04 :: rest));
      [ | rewrite Hrx, app_nil_r; cbn [app map]; rewrite !map_app, <- !app_assoc;
          reflexivity
        | lia | exact Hb | apply built_trailer_accepted ].
    unfold block_received; change (ord [block_number]) with block_number.
    rewrite Z.eqb_refl; unfold bind at 1, ser_write.
    rewrite (check_eot_on_eot _ _ rest) by reflexivity.
    eexists; cbn [concat]; rewrite app_nil_r.
    unfold wrote, with_rx; cbn [rx tx clock disk disk_writable repeat].
    rewrite <- app_assoc; reflexivity.
  - (* a block followed by another packet *)
    assert (Hn' : 0 <= (block_number + 1) mod 256 <= 255)
      by (pose proof (Z.mod_pos_bound (block_number + 1) 256); lia).
    cbn [packets_from] in Hrx.
    rewrite (build_packet_after_soh use_crc ((block_number + 1) mod 256))
      in Hrx by exact Hn'.
    set (next := (block_number + 1) mod 256) in *.
    set (tail2 := [next; 255 - next] ++ block2
                  ++ (if use_crc
                      then [Z.land (Z.shiftr (calculate_crc block2) 8) 0xFF;
                            Z.land (calculate_crc block2) 0xFF]
                      else [calculate_checksum block2])) in *.
    rewrite (receive_iteration_valid_frame use_crc (buf, block_number)
               block_number (255 - block_number) block
               (if use_crc
                then [Z.land (Z.shiftr (calculate_crc block) 8) 0xFF;
                      Z.land (calculate_crc block) 0xFF]
                else [calculate_checksum block])
               (Some 0x01 :: map Some (tail2
                                       ++ packets_from use_crc
                                            ((next + 1) mod 256) blocks)
                          ++ Some 0x04 :: rest));
      [ | rewrite Hrx; cbn [app map]; rewrite !map_app, <- !app_assoc;
          cbn [app map]; rewrite !map_app, <- !app_assoc; reflexivity
        | lia | exact Hb | apply built_trailer_accepted ].
    unfold block_received; change (ord [block_number]) with block_number.
    rewrite Z.eqb_refl; unfold bind at 1, ser_write.
    rewrite (check_eot_on_soh _ _ (map Some (tail2
                                             ++ packets_from use_crc
                                                  ((next + 1) mod 256) blocks)
                                   ++ Some 0x04 :: rest)) by reflexivity.
    fold next.
    match goal with
    | |- context [receive_loop fuel use_crc (?b, next) ?w1] =>
      destruct (IH block2 next b fuel w1 rest Hn' Hlen') as (last_block & E)
    end.
    + cbn [length] in Hfuel; lia.
    + cbn [rx with_rx packets_from].
      rewrite (build_packet_after_soh use_crc next) by exact Hn'.
      fold tail2; reflexivity.
    + exists last_block; etransitivity; [exact E|].
      cbn [rx tx clock disk disk_writable with_rx concat length repeat].
      rewrite <- !app_assoc; reflexivity.
Qed.

Lemma receive_transfer_break fuel use_crc st w received_data e w2 :
  receive_loop fuel use_crc st w = Some (Break (received_data, e), w2) ->
  receive_transfer fuel use_crc st w = save_received received_data w2.
Proof. intros H; unfold receive_transfer, bind; rewrite H; reflexivity. Qed.

(** [receive_file] on the packets of [blocks], numbered from 1 and followed
    by EOT. *)
Lemma receive_file_packets
      (fuel : nat) (checksum_type : ChecksumType) (blocks : list bytes)
      (d : bytes) (k : nat) (rest : list (option Z)) (w : World) :
  let use_crc := ChecksumType_eqb checksum_type CRC in
  blocks <> [] ->
  Forall (fun b => len b = BLOCK_SIZE) blocks ->
  (length blocks <= fuel)%nat ->
  no_trailing_padding d ->
  concat blocks = d ++ repeat 0x1a k ->
  disk_writable w = Writable ->
  rx w = map Some (packets_from use_crc 1 blocks ++ EOT) ++ rest ->
  exists w',
    receive_file fuel checksum_type w = Some (true, w')
    /\ tx w' = tx w ++ handshake_byte use_crc
                    ++ repeat 0x06 (S (length blocks))
    /\ rx w' = rest
    /\ disk w' = Some d.
Proof.
  intros use_crc Hne Hlen Hfuel Hd Hcat Hwr Hrx.
  destruct blocks as [|block blocks]; [contradiction|].
  rewrite map_app, <- app_assoc in Hrx; cbn [EOT map app] in Hrx.
  assert (Hfull : exists line,
             map Some (packets_from use_crc 1 (block :: blocks))
             ++ Some 0x04 :: rest = Some 0x01 :: line).
  { cbn [packets_from]; rewrite build_packet_after_soh by lia.
    eexists; reflexivity. }
  destruct Hfull as (line & Hfull).
  assert (Hline : rx w = Some 0x01 :: line) by (rewrite Hrx; exact Hfull).
  assert (Hpk : Some 0x01 :: line
                = map Some (packets_from use_crc 1 (block :: blocks))
                  ++ Some 0x04 :: rest) by (symmetry; exact Hfull).
  destruct (receive_file_handshake_soh fuel checksum_type w 0)
    as (w1 & E & T & R & D & W);
    [lia | intros i Hi; lia | unfold event; rewrite Hline; reflexivity |].
  fold use_crc in E, T.
  rewrite Hline in R; cbn [skipn] in R.
  destruct (receive_loop_packets use_crc blocks block 1 [] fuel w1 rest)
    as (last_block & El);
    [lia | exact Hlen | cbn [length] in Hfuel; lia | rewrite R; exact Hpk |].
  assert (Hres : receive_transfer fuel use_crc ([], 1) w1
                 = Some (true,
                         mkWorld rest
                                 (tx w1 ++ repeat 0x06 (S (S (length blocks))))
                                 (clock w1) (Some d) Writable)).
  { etransitivity; [apply (receive_transfer_break _ _ _ _ _ _ _ El)|].
    cbn [app]; unfold save_received, bind.
    rewrite Hcat, (remove_padding_result d k _ Hd).
    unfold write_output_file; cbn [disk_writable]; rewrite W, Hwr.
    reflexivity. }
  eexists; split; [rewrite E; exact Hres|].
  cbn [tx rx disk length]; split; [|split; reflexivity].
  rewrite T; cbn [repeat concat]; rewrite app_nil_r, <- app_assoc.
  reflexivity.
Qed.

(** X16.  The receiver on what an acknowledged sender writes.  On a line
    that carries the packets of one or more 128-byte blocks, numbered from 1
    and wrapping modulo 256, with trailers in the receiver's own mode, and
    then EOT, [receive_file] writes its handshake byte, an ACK for every
    packet and an ACK for EOT, returns [True], and saves the blocks put
    together with their trailing 0x1A bytes removed. *)
Theorem receive_file_accepts_packets
        (fuel : nat) (checksum_type : ChecksumType) (blocks : list bytes)
        (d : bytes) (k : nat) (rest : list (option Z)) (w : World) :
  let use_crc := ChecksumType_eqb checksum_type CRC in
  blocks <> [] ->
  Forall (fun b => len b = BLOCK_SIZE) blocks ->
  (length blocks <= fuel)%nat ->
  no_trailing_padding d ->
  concat blocks = d ++ repeat 0x1a k ->
  disk_writable w = Writable ->
  rx w = map Some (packets_from use_crc 1 blocks ++ EOT) ++ rest ->
  exists w',
    receive_file fuel checksum_type w = Some (true, w')
    /\ tx w' = tx w ++ handshake_byte use_crc
                    ++ repeat 0x06 (S (length blocks))
    /\ rx w' = rest
    /\ disk w' = Some d.
Proof. apply receive_file_packets. Qed.

Lemma receive_file_accepts_packets_witness :
  exists w',
    receive_file 1 BASIC
      (receiver_on (map Some (packets_from (ChecksumType_eqb BASIC CRC) 1
                                           [0x55 :: repeat 0x1a 127] ++ EOT)
                    ++ []))
    = Some (true, w')
    /\ tx w' = [] ++ handshake_byte (ChecksumType_eqb BASIC CRC)
                  ++ repeat 0x06 (S (length [0x55 :: repeat 0x1a 127]))
    /\ rx w' = []
    /\ disk w' = Some [0x55].
Proof.
  apply (receive_file_accepts_packets 1 BASIC [0x55 :: repeat 0x1a 127]
           [0x55] 127 []
           (receiver_on (map Some (packets_from (ChecksumType_eqb BASIC CRC) 1
                                                [0x55 :: repeat 0x1a 127] ++ EOT)
                         ++ []))).
  - discriminate.
  - repeat constructor.
  - cbn [length]; lia.
  - intros d' E; apply (f_equal (fun l => last l 0)) in E.
    unfold PADDING in E; rewrite last_last in E; discriminate E.
  - reflexivity.
  - reflexivity.
  - reflexivity.
Defined.

(** X17.  A whole transfer.  Take a non-empty file that is [d] followed by
    [k] bytes 0x1A, where [d] does not end with 0x1A, and two ends that
    were both asked for the same integrity mode.  Then the two runs fit
    together: on the line that carries the receiver's handshake byte and
    its ACKs, [send_file] returns [True] and has written [sent]; on the line
    that carries [sent], [receive_file] returns [True], has written exactly
    that handshake byte and those ACKs, and has saved [d]: the file itself
    when it does not end with 0x1A ([k = 0]), the file without its trailing
    0x1A bytes otherwise. *)
Theorem transfer_round_trip
        (d : bytes) (k : nat) (checksum_type : ChecksumType) :
  no_trailing_padding d ->
  d ++ repeat 0x1a k <> [] ->
  let F := d ++ repeat 0x1a k in
  let use_crc := ChecksumType_eqb checksum_type CRC in
  let blocks := split_blocks (pad_file_content F) in
  let answers := handshake_byte use_crc ++ repeat 0x06 (S (length blocks)) in
  exists sent w',
    send_file (Some F) checksum_type (mkWorld (map Some answers) [] 0 None Writable)
    = Some (true, mkWorld [] sent 0 None Writable)
    /\ receive_file (length blocks) checksum_type
                    (mkWorld (map Some sent) [] 0 None Writable)
       = Some (true, w')
    /\ tx w' = answers
    /\ rx w' = []
    /\ disk w' = Some d.
Proof.
  intros Hd Hne F use_crc blocks answers.
  exists (packets_from use_crc 1 blocks ++ EOT).
  destruct (padded_content_fills_blocks_aux F) as (j & Hpad).
  assert (Hblocks : blocks <> []).
  { unfold blocks; rewrite split_blocks_cons; [discriminate|].
    rewrite Hpad; intros H; apply app_eq_nil in H; destruct H as [H _].
    exact (Hne H). }
  destruct (split_blocks_full (pad_file_content F)) as [Hlen _];
    [apply pad_file_content_len|].
  destruct (receive_file_packets (length blocks) checksum_type blocks d (k + j)
              [] (mkWorld (map Some (packets_from use_crc 1 blocks ++ EOT))
                          [] 0 None Writable))
    as (w' & E & T & R & D);
    [ exact Hblocks | exact Hlen | apply Nat.le_refl | exact Hd
    | unfold blocks; rewrite split_blocks_concat, Hpad; unfold F;
      rewrite <- app_assoc, <- repeat_app; reflexivity
    | reflexivity
    | fold use_crc; cbn [rx]; now rewrite app_nil_r
    | ].
  exists w'; split; [|split; [exact E|split; [exact T|split; assumption]]].
    pose proof (send_file_all_acked F checksum_type
                  (if use_crc then 0x43 else 0x15) []
                  (mkWorld (map Some answers) [] 0 None Writable)) as Hsend.
    cbv zeta in Hsend; fold blocks in Hsend.
    assert (Hmode : ((if use_crc then 0x43 else 0x15) =? 0x43)
                    && ChecksumType_eqb checksum_type CRC = use_crc)
      by (unfold use_crc; destruct checksum_type; reflexivity).
    rewrite Hmode in Hsend; apply Hsend.
    unfold answers, handshake_byte; cbn [rx].
    rewrite map_app, repeat_snoc, map_app, map_repeat.
    destruct use_crc; reflexivity.
Qed.

Lemma transfer_round_trip_witness :
  exists sent w',
    send_file (Some ([0x48; 0x69] ++ repeat 0x1a 1)) CRC
      (mkWorld (map Some (handshake_byte (ChecksumType_eqb CRC CRC)
                          ++ repeat 0x06
                               (S (length (split_blocks
                                             (pad_file_content
                                                ([0x48; 0x69] ++ repeat 0x1a 1)))))))
               [] 0 None Writable)
    = Some (true, mkWorld [] sent 0 None Writable)
    /\ receive_file
         (length (split_blocks (pad_file_content ([0x48; 0x69] ++ repeat 0x1a 1))))
         CRC (mkWorld (map Some sent) [] 0 None Writable)
       = Some (true, w')
    /\ tx w' = handshake_byte (ChecksumType_eqb CRC CRC)
               ++ repeat 0x06
                    (S (length (split_blocks
                                  (pad_file_content
                                     ([0x48; 0x69] ++ repeat 0x1a 1)))))
    /\ rx w' = []
    /\ disk w' = Some [0x48; 0x69].
Proof.
  apply (transfer_round_trip [0x48; 0x69] 1 CRC).
  - intros d' E; apply (f_equal (fun l => last l 0)) in E.
    unfold PADDING in E; rewrite last_last in E; discriminate E.
  - discriminate.
Defined.

(** ** The receive loop after a rejected frame *)

(** A frame with a good header and 128 bytes of data whose trailer has the
    right length but not the right value is answered with NAK. *)
Lemma receive_iteration_bad_trailer
      (use_crc : bool) st (N comp : Z) (data trailer : bytes) rest w :
  rx w = map Some ([N; comp] ++ data ++ trailer) ++ rest ->
  N + comp = 255 ->
  len data = BLOCK_SIZE ->
  len trailer = (if use_crc then 2 else 1) ->
  trailer_accepted use_crc data trailer = false ->
  receive_iteration use_crc st w
  = Some (Continue st, wrote NAK (with_rx rest w)).
Proof.
  intros Hrx Hsum Hlen Hl Htr.
  rewrite map_app, <- app_assoc in Hrx; simpl in Hrx.
  rewrite map_app, <- app_assoc in Hrx.
  unfold receive_iteration, bind.
  rewrite (ser_read_exact 1 [N] _ w eq_refl Hrx); cbv beta iota.
  change (negb (truthy [N])) with false; cbv beta iota.
  rewrite (ser_read_exact 1 [comp] (map Some data ++ map Some trailer ++ rest))
    by reflexivity.
  cbv beta iota; change (negb (truthy [comp])) with false; cbv beta iota.
  change (block_num_verified [N] [comp]) with (N + comp =? 255).
  rewrite (proj2 (Z.eqb_eq _ _) Hsum).
  change (negb true) with false; cbv beta iota.
  rewrite (ser_read_exact _ data (map Some trailer ++ rest))
    by (try reflexivity; symmetry; apply len_length; exact Hlen).
  cbv beta iota; rewrite Hlen, Z.eqb_refl.
  change (negb true) with false; cbv beta iota.
  unfold trailer_accepted in Htr; destruct use_crc;
    rewrite Hl, Z.eqb_refl in Htr; cbn [andb] in Htr.
  - rewrite (ser_read_exact 2 trailer rest)
      by (try reflexivity; symmetry; apply len_length; exact Hl).
    cbv beta iota; rewrite Hl, Htr; reflexivity.
  - rewrite (ser_read_exact 1 trailer rest)
      by (try reflexivity; symmetry; apply len_length; exact Hl).
    cbv beta iota.
    replace (negb (truthy trailer)) with false
      by (destruct trailer; [discriminate Hl | reflexivity]).
    rewrite Htr; reflexivity.
Qed.

(** At the head of the loop the next two bytes are block number and
    complement, whatever they are: the SOH of a packet read there is taken
    for a block number. *)
Lemma receive_iteration_soh_as_number use_crc st (N : Z) rest w :
  rx w = Some 0x01 :: Some N :: rest ->
  N <> 254 ->
  receive_iteration use_crc st w
  = Some (Continue st, wrote NAK (with_rx rest w)).
Proof.
  intros Hrx HN; unfold receive_iteration, bind.
  rewrite (ser_read_exact 1 [0x01] (Some N :: rest) w eq_refl Hrx).
  cbv beta iota; change (negb (truthy [1])) with false; cbv beta iota.
  rewrite (ser_read_exact 1 [N] rest) by reflexivity.
  cbv beta iota; change (negb (truthy [N])) with false; cbv beta iota.
  change (block_num_verified [1] [N]) with (1 + N =? 255).
  destruct (Z.eqb_spec (1 + N) 255); [lia | reflexivity].
Qed.

(** X18.  A retransmission is not recognised.  After a frame that was
    rejected for its integrity trailer, the receive loop is at its head
    without having read an SOH.  When the sender answers the NAK by sending
    the packet of that block again, the receiver reads the SOH of the
    packet as block number and the block number as complement; unless the
    block number is 254 it rejects the packet with a second NAK, keeps its
    state, and goes on reading in the middle of the packet. *)
Theorem retransmission_is_not_recognised
        (use_crc : bool) (st : RecvState) (N comp : Z)
        (data trailer block : bytes) (rest : list (option Z)) (w : World) :
  rx w = map Some ([N; comp] ++ data ++ trailer)
         ++ map Some (build_packet use_crc N block) ++ rest ->
  N + comp = 255 ->
  len data = BLOCK_SIZE ->
  len trailer = (if use_crc then 2 else 1) ->
  trailer_accepted use_crc data trailer = false ->
  0 <= N <= 255 ->
  N <> 254 ->
  exists w',
    receive_iterations 2 use_crc st w = Some (Continue st, w')
    /\ tx w' = tx w ++ NAK ++ NAK
    /\ rx w' = map Some (skipn 2 (build_packet use_crc N block)) ++ rest.
Proof.
  intros Hrx Hsum Hlen Hl Htr HN H254.
  cbn [receive_iterations]; unfold bind at 1.
  rewrite (receive_iteration_bad_trailer use_crc st N comp data trailer
             (map Some (build_packet use_crc N block) ++ rest) w)
    by assumption.
  unfold bind at 1.
  rewrite (receive_iteration_soh_as_number use_crc st N
             (map Some (skipn 2 (build_packet use_crc N block)) ++ rest));
    [ | cbn [rx wrote with_rx]; rewrite build_packet_after_soh by exact HN;
        reflexivity
      | exact H254 ].
  eexists; split; [reflexivity|]; cbn [tx rx wrote with_rx].
  split; [now rewrite <- app_assoc | reflexivity].
Qed.

Lemma retransmission_is_not_recognised_witness :
  exists w',
    receive_iterations 2 true ([], 1)
      (receiver_on (map Some ([1; 254] ++ repeat 0x41 128 ++ [0x00; 0x00])
                    ++ map Some (build_packet true 1 (repeat 0x41 128)) ++ []))
    = Some (Continue ([], 1), w')
    /\ tx w' = [] ++ NAK ++ NAK
    /\ rx w' = map Some (skipn 2 (build_packet true 1 (repeat 0x41 128))) ++ [].
Proof.
  apply (retransmission_is_not_recognised true ([], 1) 1 254
           (repeat 0x41 128) [0x00; 0x00] (repeat 0x41 128) []
           (receiver_on (map Some ([1; 254] ++ repeat 0x41 128 ++ [0x00; 0x00])
                         ++ map Some (build_packet true 1 (repeat 0x41 128))
                         ++ [])));
    try reflexivity; lia.
Defined.

(** On a line without bytes the loop goes on for ever. *)
Lemma receive_loop_silence (fuel : nat) use_crc :
  forall st w (n : nat),
    rx w = repeat None n -> receive_loop fuel use_crc st w = None.
Proof.
  induction fuel as [|fuel IH]; intros st w n Hrx.
  - reflexivity.
  - cbn [receive_loop]; unfold bind, receive_iteration, bind.
    rewrite ser_read_one.
    assert (E0 : event (rx w) 0 = None)
      by (unfold event; rewrite Hrx; destruct n; reflexivity).
    rewrite E0; cbn [read_result truthy negb]; cbv beta iota.
    unfold nak_continue, bind, ser_write, ret; cbv beta iota.
    apply (IH st _ (pred n)); cbn [rx after_read]; rewrite Hrx.
    destruct n; reflexivity.
Qed.

(** X19.  The receiver has no bound of its own.  Once the handshake has
    seen SOH, a line on which nothing more arrives keeps [receive_file] in
    its loop for ever, answering every one-second timeout with NAK: for no
    number of iterations does it return. *)
Theorem receiver_waits_for_ever
        (fuel : nat) (checksum_type : ChecksumType) (n : nat) (w : World) :
  rx w = Some 0x01 :: repeat None n ->
  receive_file fuel checksum_type w = None.
Proof.
  intros Hrx.
  destruct (receive_file_handshake_soh fuel checksum_type w 0)
    as (w1 & E & _ & R & _);
    [lia | intros i Hi; lia | unfold event; rewrite Hrx; reflexivity |].
  rewrite E; unfold receive_transfer, bind.
  rewrite (receive_loop_silence fuel _ _ w1 n); [reflexivity|].
  rewrite R, Hrx; reflexivity.
Qed.

Lemma receiver_waits_for_ever_witness :
  receive_file 1000 CRC (receiver_on (Some 0x01 :: repeat None 3)) = None.
Proof.
  apply (receiver_waits_for_ever 1000 CRC 3
           (receiver_on (Some 0x01 :: repeat None 3))).
  reflexivity.
Defined.

(** ** The numbering of the packets *)

Lemma build_packet_mod use_crc block_number block :
  build_packet use_crc (block_number mod 256) block
  = build_packet use_crc block_number block.
Proof.
  rewrite !build_packet_layout, !land_0xFF, Z.mod_mod by lia; reflexivity.
Qed.

Lemma packets_from_nth use_crc (i : nat) :
  forall block_number blocks block,
    nth_error blocks i = Some block ->
    packets_from use_crc block_number blocks
    = packets_from use_crc block_number (firstn i blocks)
      ++ build_packet use_crc ((block_number + Z.of_nat i) mod 256) block
      ++ packets_from use_crc ((block_number + Z.of_nat i + 1) mod 256)
                      (skipn (S i) blocks).
Proof.
  induction i as [|i IH]; intros block_number blocks block Hnth;
    destruct blocks as [|b0 blocks]; try discriminate Hnth.
  - injection Hnth as ->; cbn [firstn skipn packets_from app].
    rewrite Z.add_0_r, build_packet_mod; reflexivity.
  - cbn [nth_error] in Hnth; cbn [firstn packets_from].
    rewrite (IH ((block_number + 1) mod 256) blocks block Hnth).
    rewrite <- app_assoc; cbn [skipn].
    replace (((block_number + 1) mod 256 + Z.of_nat i) mod 256)
      with ((block_number + Z.of_nat (S i)) mod 256)
      by (rewrite Zplus_mod_idemp_l; f_equal; lia).
    replace (((block_number + 1) mod 256 + Z.of_nat i + 1) mod 256)
      with ((block_number + Z.of_nat (S i) + 1) mod 256)
      by (rewrite <- (Z.add_assoc ((block_number + 1) mod 256)),
          Zplus_mod_idemp_l; f_equal; lia).
    reflexivity.
Qed.

Lemma Forall_firstn {A : Type} (P : A -> Prop) (n : nat) (l : list A) :
  Forall P l -> Forall P (firstn n l).
Proof.
  intros H; revert n; induction H as [|x l Hx Hl IH]; intros [|n];
    cbn [firstn]; constructor; [exact Hx | apply IH].
Qed.

Lemma len_build_packet use_crc block_number block :
  len (build_packet use_crc block_number block)
  = 3 + len block + (if use_crc then 2 else 1).
Proof.
  rewrite build_packet_layout; unfold len, SOH; rewrite !length_app.
  destruct use_crc; simpl length; lia.
Qed.

Lemma len_packets_from use_crc (blocks : list bytes) :
  forall block_number,
    Forall (fun b => len b = BLOCK_SIZE) blocks ->
    len (packets_from use_crc block_number blocks)
    = Z.of_nat (length blocks) * (131 + (if use_crc then 2 else 1)).
Proof.
  induction blocks as [|b blocks IH]; intros block_number H.
  - reflexivity.
  - inversion H as [|? ? Hb Hbs]; subst.
    cbn [packets_from length]; rewrite len_app, len_build_packet, Hb, IH
      by exact Hbs.
    unfold BLOCK_SIZE; lia.
Qed.

(** X20.  How the sender numbers the blocks on the wire.  Run [send_file]
    on a line where a handshake byte and an ACK for every packet and for
    EOT arrive at once.  Then, for the block at index [i] (counted from 0)
    of the padded file, what [send_file] has written holds, at the offset
    of [i] whole packets, the packet of that block under the number
    [(1 + i) mod 256]: the first block is number 1 and the block after
    number 255 is number 0.  That packet starts with SOH, the number and
    255 minus the number. *)
Theorem sender_numbers_blocks_from_one
        (F : bytes) (checksum_type : ChecksumType) (hs : Z)
        (rest : list (option Z)) (w : World) (i : nat) (block : bytes) :
  let blocks := split_blocks (pad_file_content F) in
  let use_crc := (hs =? 0x43) && ChecksumType_eqb checksum_type CRC in
  let number := (1 + Z.of_nat i) mod 256 in
  nth_error blocks i = Some block ->
  rx w = Some hs :: repeat (Some 0x06) (length blocks) ++ Some 0x06 :: rest ->
  exists w' before after,
    send_file (Some F) checksum_type w = Some (true, w')
    /\ tx w' = tx w ++ before ++ build_packet use_crc number block ++ after
    /\ len before = Z.of_nat i * (131 + (if use_crc then 2 else 1))
    /\ firstn 3 (build_packet use_crc number block)
       = [0x01; number; 255 - number].
Proof.
  intros blocks use_crc number Hnth Hrx.
  pose proof (send_file_all_acked F checksum_type hs rest w Hrx) as E.
  cbv zeta in E; fold blocks in E; fold use_crc in E.
  destruct (split_blocks_full (pad_file_content F)) as [Hlen _];
    [apply pad_file_content_len|]; fold blocks in Hlen.
  assert (Hi : (i < length blocks)%nat)
    by (apply nth_error_Some; rewrite Hnth; discriminate).
  eexists _, (packets_from use_crc 1 (firstn i blocks)),
          (packets_from use_crc ((1 + Z.of_nat i + 1) mod 256)
                        (skipn (S i) blocks) ++ EOT).
  split; [exact E|]; cbn [tx]; split; [|split].
  - rewrite (packets_from_nth use_crc i 1 blocks block Hnth).
    fold number; rewrite <- !app_assoc; reflexivity.
  - rewrite len_packets_from by (apply Forall_firstn, Hlen).
    rewrite length_firstn, Nat.min_l by lia; reflexivity.
  - rewrite build_packet_after_soh; [reflexivity|].
    pose proof (Z.mod_pos_bound (1 + Z.of_nat i) 256); unfold number; lia.
Qed.

Lemma sender_numbers_blocks_from_one_witness :
  exists w' before after,
    send_file (Some (repeat 0x00 200)) CRC
              (mkWorld (Some 0x43 :: repeat (Some 0x06)
                          (length (split_blocks
                                     (pad_file_content (repeat 0x00 200))))
                        ++ Some 0x06 :: []) [] 0 None Writable)
    = Some (true, w')
    /\ tx w' = [] ++ before
                  ++ build_packet ((0x43 =? 0x43) && ChecksumType_eqb CRC CRC)
                       ((1 + Z.of_nat 1) mod 256)
                       (repeat 0x00 72 ++ repeat 0x1a 56)
                  ++ after
    /\ len before
       = Z.of_nat 1 * (131 + (if (0x43 =? 0x43) && ChecksumType_eqb CRC CRC
                              then 2 else 1))
    /\ firstn 3 (build_packet ((0x43 =? 0x43) && ChecksumType_eqb CRC CRC)
                              ((1 + Z.of_nat 1) mod 256)
                              (repeat 0x00 72 ++ repeat 0x1a 56))
       = [0x01; (1 + Z.of_nat 1) mod 256; 255 - (1 + Z.of_nat 1) mod 256].
Proof.
  apply (sender_numbers_blocks_from_one (repeat 0x00 200) CRC 0x43 []
           (mkWorld (Some 0x43 :: repeat (Some 0x06)
                       (length (split_blocks
                                  (pad_file_content (repeat 0x00 200))))
                     ++ Some 0x06 :: []) [] 0 None Writable)
           1 (repeat 0x00 72 ++ repeat 0x1a 56));
    reflexivity.
Defined.

(** ** When the output file is written *)

Lemma receive_loop_break_tx (fuel : nat) use_crc :
  forall st w st' w',
    receive_loop fuel use_crc st w = Some (Break st', w') ->
    exists pre, tx w' = pre ++ ACK ++ ACK.
Proof.
  induction fuel as [|fuel IH]; intros st w st' w' H; [discriminate H|].
  cbn [receive_loop] in H; unfold bind in H.
  destruct (iteration_shaped_receive_iteration use_crc st w)
    as (c & w1 & E1 & O); rewrite E1 in H.
  destruct c as [s|s|b].
  - apply (IH s w1 st' w' H).
  - injection H as _ <-.
    destruct O as [[Hc _]|[[Hc _]|(s' & _ & [[Hc _]|[_ T]])]];
      try discriminate Hc.
    exists (tx w); exact T.
  - discriminate H.
Qed.

Lemma save_received_tx received_data w r w' :
  save_received received_data w = Some (r, w') -> tx w' = tx w.
Proof.
  unfold save_received, bind; intros H.
  destruct (trailing_padding_split received_data) as (d & k & E & Hd).
  rewrite E, (remove_padding_result d k w Hd) in H.
  unfold write_output_file in H.
  destruct (disk_writable w); injection H as _ <-; reflexivity.
Qed.

(** X21.  The output file is touched only after EOT.  On every run of
    [receive_file] that returns, either the output file is as it was, or
    the last bytes the receiver wrote are the ACK of a frame and the ACK of
    the EOT that followed it: a failed handshake, a cancel and a frame out
    of sequence never touch the file. *)
Theorem output_file_changes_only_after_eot
        (fuel : nat) (checksum_type : ChecksumType) (w : World)
        (r : bool) (w' : World) :
  receive_file fuel checksum_type w = Some (r, w') ->
  disk w' = disk w \/ exists pre, tx w' = pre ++ ACK ++ ACK.
Proof.
  unfold receive_file, bind; intros H.
  destruct (receive_handshake_loop _ _ _ w) as [[h w1]|] eqn:Eh;
    [|discriminate H].
  apply keeps_disk_receive_handshake_loop in Eh; destruct Eh as [D1 _].
  assert (Ht : receive_transfer fuel (ChecksumType_eqb checksum_type CRC)
                                ([], 1) w1 = Some (r, w')
               -> disk w' = disk w \/ exists pre, tx w' = pre ++ ACK ++ ACK).
  { clear H; unfold receive_transfer, bind; intros H.
    destruct (receive_loop _ _ _ w1) as [[ctl w2]|] eqn:El; [|discriminate H].
    pose proof El as Hinv; apply receive_loop_invariant in Hinv; [|lia].
    destruct Hinv as [->|(blocks & _ & ->)].
    - injection H as _ <-; left.
      apply keeps_disk_receive_loop in El; destruct El as [D2 _]; congruence.
    - right; apply receive_loop_break_tx in El; destruct El as (pre & T).
      exists pre; rewrite <- T; apply (save_received_tx _ _ _ _ H). }
  destruct h as [n|n|b].
  1, 2: destruct (n >=? RETRY_LIMIT);
    [injection H as _ <-; left; exact D1 | exact (Ht H)].
  injection H as _ <-; left; exact D1.
Qed.

Lemma output_file_changes_only_after_eot_witness :
  disk (mkWorld [] (C ++ ACK ++ ACK ++ ACK) 0
                (Some (repeat 0x41 128 ++ repeat 0x42 128)) Writable)
  = disk (receiver_on two_block_transfer)
  \/ exists pre,
      tx (mkWorld [] (C ++ ACK ++ ACK ++ ACK) 0
                  (Some (repeat 0x41 128 ++ repeat 0x42 128)) Writable)
      = pre ++ ACK ++ ACK.
Proof.
  apply (output_file_changes_only_after_eot 2 CRC
           (receiver_on two_block_transfer) true).
  vm_compute; reflexivity.
Defined.
